(** * MT5 reverse-position bot: a shallow embedding of [mt5_reverse_bot.py]

    The bot polls a trading venue (the [MetaTrader5] module), opens one
    "reverse" position for every position it finds, keeps the reverse's
    stop-loss/take-profit swapped from the original's, and closes the reverse
    when the original disappears.

    Modelling choices.
    - Python [float]s are kept abstract: the class [PyFloat] lists the float
      operations the source uses ([==], [<], [*], [round(x, n)]) and assumes
      no law about them, so every theorem holds for IEEE doubles as well as
      for the exact rationals used in the examples.
    - Python [int]s are [Z]; [str] is [string] (code points below 256, on
      which the regular expression class [\d] is exactly the ASCII digits).
      [int()] and [str()] convert exactly; CPython's configurable cap on the
      number of digits they handle is far above any ticket and is left out.
    - The [MetaTrader5] module is an abstract venue: a state [V] that queries
      read and that [order_send], [symbol_select] and [time.sleep] may change
      in any way.  Every request handed to [order_send] is recorded, in
      order, as the list of commands a computation issued.
    - [orig_to_rev] is an insertion-ordered association list (the order in
      which Python iterates a [dict]); [reversed_once] is a [gset Z];
      [pos_by_ticket] is a [gmap].
    - [print] calls are not modelled. *)

From Stdlib Require Import ZArith Lia Ascii String QArith.
From Stdlib Require Import Decimal DecimalString DecimalPos DecimalN DecimalZ.
From stdpp Require Import base decidable option list gmap strings.

Local Open Scope string_scope.
Local Open Scope Z_scope.

#[local] Set Warnings "-clear-no-such-hyp".

(** ** User configuration (module constants) *)

Definition MAGIC : Z := 987654321.
Definition DEVIATION : Z := 20.
Definition POLL_SECONDS : Q := 1%Q.
Definition COMMENT_PREFIX : string := "REV of ".

(** [time.sleep(0.2)] in the opening pass. *)
Definition SETTLE_SECONDS : Q := (1 # 5)%Q.

(** [mt5.TRADE_RETCODE_DONE] of the MetaTrader5 package. *)
Definition TRADE_RETCODE_DONE : Z := 10009.

(** ** Strings: [str(int)], [int(str)], [startswith] and the annotation regex *)

(** [str(n)] for a Python [int]. *)
Definition str_of_int (n : Z) : string := NilZero.string_of_int (Z.to_int n).

Definition is_digit (c : ascii) : bool :=
  (48 <=? nat_of_ascii c)%nat && (nat_of_ascii c <=? 57)%nat.

Definition digit_value (c : ascii) : Z := Z.of_nat (nat_of_ascii c) - 48.

Fixpoint all_digits (s : string) : bool :=
  match s with
  | EmptyString => true
  | String c s' => is_digit c && all_digits s'
  end.

(** One or more digits: what [\d+] matches in full. *)
Definition nonempty_digits (s : string) : bool :=
  match s with
  | EmptyString => false
  | _ => all_digits s
  end.

Fixpoint int_of_digits_acc (s : string) (acc : Z) : Z :=
  match s with
  | EmptyString => acc
  | String c s' => int_of_digits_acc s' (10 * acc + digit_value c)
  end.

(** [int(s)] on a string of decimal digits. *)
Definition int_of_str (s : string) : Z := int_of_digits_acc s 0.

(** [strip_prefix p s] is [Some rest] when [s = p ++ rest]. *)
Fixpoint strip_prefix (p s : string) : option string :=
  match p, s with
  | EmptyString, _ => Some s
  | String a p', String b s' => if Ascii.eqb a b then strip_prefix p' s' else None
  | String _ _, EmptyString => None
  end.

(** [s.startswith(p)]. *)
Definition startswith (s p : string) : bool :=
  match strip_prefix p s with
  | Some _ => true
  | None => false
  end.

Definition newline : ascii := ascii_of_nat 10.

(** [drop_final_newline s] is [Some body] when [s = body ++ "\n"]. *)
Fixpoint drop_final_newline (s : string) : option string :=
  match s with
  | EmptyString => None
  | String c EmptyString => if Ascii.eqb c newline then Some EmptyString else None
  | String c s' => option_map (String c) (drop_final_newline s')
  end.

(** Group 1 of [re.match(rf"^{re.escape(COMMENT_PREFIX)}(\d+)$", comment)].
    Without [re.MULTILINE], [$] matches at the end of the string and also
    just before a newline that is the last character of the string. *)
Definition match_ticket_digits (comment : string) : option string :=
  match strip_prefix COMMENT_PREFIX comment with
  | None => None
  | Some rest =>
      let digits :=
        match drop_final_newline rest with
        | Some body => body
        | None => rest
        end in
      if nonempty_digits digits then Some digits else None
  end.

Definition parse_original_ticket_from_comment (comment : string) : option Z :=
  match match_ticket_digits comment with
  | None => None
  | Some digits => Some (int_of_str digits)
  end.

(** The annotation format in the spec's words: the fixed prefix followed by
    decimal digits (used only to state the claim about the parser). *)
Definition spec_is_annotation (s : string) : bool :=
  match strip_prefix COMMENT_PREFIX s with
  | Some rest => nonempty_digits rest
  | None => false
  end.

(** ** [orig_to_rev]: a Python [dict] from [int] to [int], in insertion order *)

Definition dict : Type := list (Z * Z).

(** [k in d] *)
Fixpoint dict_mem (k : Z) (d : dict) : bool :=
  match d with
  | [] => false
  | (k', _) :: d' => if decide (k = k') then true else dict_mem k d'
  end.

(** [d.get(k)] *)
Fixpoint dict_get (k : Z) (d : dict) : option Z :=
  match d with
  | [] => None
  | (k', v) :: d' => if decide (k = k') then Some v else dict_get k d'
  end.

(** [d[k] = v]: an existing key keeps its place, a new key goes last. *)
Fixpoint dict_set (k v : Z) (d : dict) : dict :=
  match d with
  | [] => [(k, v)]
  | (k', v') :: d' => if decide (k = k') then (k, v) :: d' else (k', v') :: dict_set k v d'
  end.

(** [d.pop(k, None)] *)
Fixpoint dict_pop (k : Z) (d : dict) : dict :=
  match d with
  | [] => []
  | (k', v') :: d' => if decide (k = k') then dict_pop k d' else (k', v') :: dict_pop k d'
  end.

(** [list(d.items())] *)
Definition dict_items (d : dict) : list (Z * Z) := d.

(** A [dict] holds each key once. *)
Definition dict_wf (d : dict) : Prop := NoDup (d.*1).

(** ** Python floats

    The float operations the source uses.  [f_eqb] is [==], [f_ltb] is [<],
    [f_mul] is [*] and [f_round x n] is [round(x, n)]; no law is assumed. *)

Class PyFloat (F : Type) := {
  f_zero : F;
  f_two : F;
  f_eqb : F → F → bool;
  f_ltb : F → F → bool;
  f_mul : F → F → F;
  f_round : F → Z → F;
}.

(** ** The MetaTrader5 enumerations the source uses *)

Inductive PositionType := POSITION_TYPE_BUY | POSITION_TYPE_SELL.
Inductive OrderType := ORDER_TYPE_BUY | ORDER_TYPE_SELL.
Inductive TradeAction := TRADE_ACTION_DEAL | TRADE_ACTION_SLTP.
Inductive OrderFilling := ORDER_FILLING_FOK.
Inductive OrderTime := ORDER_TIME_GTC.

Global Instance PositionType_eq_dec : EqDecision PositionType.
Proof. solve_decision. Defined.
Global Instance OrderType_eq_dec : EqDecision OrderType.
Proof. solve_decision. Defined.
Global Instance TradeAction_eq_dec : EqDecision TradeAction.
Proof. solve_decision. Defined.


(** ** More vocabulary *)

(** The comment the bot writes on the reverse of original [n]:
    [f"{COMMENT_PREFIX}{n}"]. *)
Definition annotation (n : Z) : string := COMMENT_PREFIX +:+ str_of_int n.

(** ** Venue data *)

Section Data.

Context {F : Type}.

(** [mt5.TradePosition], the fields the source reads. *)
Record TradePosition := {
  ticket : Z;
  symbol : string;
  type : PositionType;
  volume : F;
  sl : F;
  tp : F;
  magic : Z;
  comment : string;
}.

(** [mt5.symbol_info(symbol)] *)
Record SymbolInfo := { digits : Z; visible : bool }.

(** [mt5.symbol_info_tick(symbol)] *)
Record Tick := { bid : F; ask : F }.

(** The result of [mt5.order_send]. *)
Record OrderSendResult := { retcode : Z; order : Z; deal : Z }.

(** The request dictionary handed to [mt5.order_send]; a key that a request
    does not carry is [None] (so is the [price] of a close request when no
    tick is available, where the source passes Python's [None]). *)
Record TradeRequest := {
  req_action : TradeAction;
  req_position : option Z;
  req_symbol : string;
  req_type : option OrderType;
  req_volume : option F;
  req_price : option F;
  req_deviation : option Z;
  req_magic : Z;
  req_comment : string;
  req_type_filling : option OrderFilling;
  req_type_time : option OrderTime;
  req_sl : option F;
  req_tp : option F;
}.

(** ** The venue

    The calls of the [MetaTrader5] module (and [time.sleep]) on a venue state
    [V].  Queries read the state; [symbol_select], [order_send] and the
    passing of time may change it arbitrarily. *)

Record Gateway (V : Type) := {
  positions_get : V → list TradePosition;
  positions_get_symbol : V → string → list TradePosition;
  symbol_info : V → string → option SymbolInfo;
  symbol_info_tick : V → string → option Tick;
  symbol_select : V → string → bool * V;
  order_send : V → TradeRequest → option OrderSendResult * V;
  sleep : V → Q → V;
}.

End Data.

Arguments TradePosition : clear implicits.
Arguments Tick : clear implicits.
Arguments TradeRequest : clear implicits.
Arguments Gateway : clear implicits.
Arguments positions_get {F V} _ _.
Arguments positions_get_symbol {F V} _ _ _.
Arguments symbol_info {F V} _ _ _.
Arguments symbol_info_tick {F V} _ _ _.
Arguments symbol_select {F V} _ _ _.
Arguments order_send {F V} _ _ _.
Arguments sleep {F V} _ _ _.

(** * The program *)

Section Program.

Context {F : Type} `{PyFloat F} {V : Type} (mt5 : Gateway F V).

(** [bool(x)] of a float. *)
Definition truthy (x : F) : bool := negb (f_eqb x f_zero).

(** The condition [x and x > 0]. *)
Definition is_set (x : F) : bool := truthy x && f_ltb f_zero x.

(** [x if x and x > 0 else None] *)
Definition level_or_none (x : F) : option F := if is_set x then Some x else None.


(** ** Effects: the venue state is threaded, issued requests are collected *)

Record Run (A : Type) := { value : A; venue : V; issued : list (TradeRequest F) }.
Arguments value {A} _.
Arguments venue {A} _.
Arguments issued {A} _.

Definition M (A : Type) : Type := V → Run A.

Definition ret {A} (a : A) : M A :=
  λ v, {| value := a; venue := v; issued := [] |}.

Definition bind {A B} (m : M A) (f : A → M B) : M B :=
  λ v, let r1 := m v in
       let r2 := f (value r1) (venue r1) in
       {| value := value r2; venue := venue r2; issued := issued r1 ++ issued r2 |}.

Notation "'let*' x ':=' m 'in' k" := (bind m (λ x, k))
  (at level 10, x name, m at level 100, k at level 200).

Definition query {A} (q : V → A) : M A :=
  λ v, {| value := q v; venue := v; issued := [] |}.

Definition symbol_selectM (symbol : string) : M bool :=
  λ v, let r := symbol_select mt5 v symbol in
       {| value := r.1; venue := r.2; issued := [] |}.

Definition order_sendM (request : TradeRequest F) : M (option OrderSendResult) :=
  λ v, let r := order_send mt5 v request in
       {| value := r.1; venue := r.2; issued := [request] |}.

Definition sleepM (seconds : Q) : M unit :=
  λ v, {| value := (); venue := sleep mt5 v seconds; issued := [] |}.

(** A [for] loop that updates a state. *)
Fixpoint for_each {A S} (body : A → S → M S) (l : list A) (s : S) : M S :=
  match l with
  | [] => ret s
  | a :: l' => let* s' := body a s in for_each body l' s'
  end.

(** ** Helpers *)

Definition normalize_price (symbol : string) (price : F) : M F :=
  let* info := query (λ v, symbol_info mt5 v symbol) in
  match info with
  | None => ret price
  | Some info => ret (f_round price (digits info))
  end.

Definition price_from_tick (symbol : string) (position_type : PositionType) : M (option F) :=
  let* tick := query (λ v, symbol_info_tick mt5 v symbol) in
  match tick with
  | None => ret None
  | Some tick =>
      match position_type with
      | POSITION_TYPE_BUY => ret (Some (ask tick))
      | POSITION_TYPE_SELL => ret (Some (bid tick))
      end
  end.

Definition ensure_symbol (symbol : string) : M bool :=
  let* info := query (λ v, symbol_info mt5 v symbol) in
  match info with
  | None => ret false
  | Some info => if visible info then ret true else symbol_selectM symbol
  end.

Definition is_our_reverse (pos : TradePosition F) : bool :=
  if decide (magic pos = MAGIC)
  then match comment pos with
       | EmptyString => false
       | _ => startswith (comment pos) COMMENT_PREFIX
       end
  else false.

Definition reverse_type (original_type : PositionType) : OrderType :=
  match original_type with
  | POSITION_TYPE_BUY => ORDER_TYPE_SELL
  | POSITION_TYPE_SELL => ORDER_TYPE_BUY
  end.

Definition desired_sltp_for_reverse (orig : TradePosition F) : option F * option F :=
  let rev_sl := level_or_none (tp orig) in
  let rev_tp := level_or_none (sl orig) in
  (rev_sl, rev_tp).

(** [normalize_price(symbol, x)] when [x] is not [None]. *)
Definition normalize_opt (symbol : string) (x : option F) : M (option F) :=
  match x with
  | None => ret None
  | Some x => let* y := normalize_price symbol x in ret (Some y)
  end.

Definition send_market_order (symbol : string) (order_type : OrderType) (volume : F)
    (sl tp : option F) (comment : string) (magic : Z) : M (option Z) :=
  let* ok := ensure_symbol symbol in
  if negb ok then ret None else
  let* price := price_from_tick symbol
                  (match order_type with
                   | ORDER_TYPE_BUY => POSITION_TYPE_BUY
                   | ORDER_TYPE_SELL => POSITION_TYPE_SELL
                   end) in
  match price with
  | None => ret None
  | Some price =>
      let* sl' := normalize_opt symbol sl in
      let* tp' := normalize_opt symbol tp in
      let request :=
        {| req_action := TRADE_ACTION_DEAL;
           req_position := None;
           req_symbol := symbol;
           req_type := Some order_type;
           req_volume := Some volume;
           req_price := Some price;
           req_deviation := Some DEVIATION;
           req_magic := magic;
           req_comment := comment;
           req_type_filling := Some ORDER_FILLING_FOK;
           req_type_time := Some ORDER_TIME_GTC;
           req_sl := sl';
           req_tp := tp' |} in
      let* result := order_sendM request in
      match result with
      | None => ret None
      | Some result =>
          if decide (retcode result = TRADE_RETCODE_DONE)
          then ret (Some (order result))
          else ret None
      end
  end.

(** [normalize_price(symbol, x) if x is not None else 0.0] *)
Definition normalize_or_zero (symbol : string) (x : option F) : M F :=
  match x with
  | None => ret f_zero
  | Some x => normalize_price symbol x
  end.

Definition order_done (res : option OrderSendResult) : bool :=
  match res with
  | None => false
  | Some res => bool_decide (retcode res = TRADE_RETCODE_DONE)
  end.

Definition modify_position_sltp (position_ticket : Z) (symbol : string)
    (sl tp : option F) : M bool :=
  let* sl' := normalize_or_zero symbol sl in
  let* tp' := normalize_or_zero symbol tp in
  let req :=
    {| req_action := TRADE_ACTION_SLTP;
       req_position := Some position_ticket;
       req_symbol := symbol;
       req_type := None;
       req_volume := None;
       req_price := None;
       req_deviation := None;
       req_magic := MAGIC;
       req_comment := "sync sltp";
       req_type_filling := None;
       req_type_time := None;
       req_sl := Some sl';
       req_tp := Some tp' |} in
  let* res := order_sendM req in
  ret (order_done res).

Definition close_position (position_ticket : Z) (symbol : string) (volume : F)
    (position_type : PositionType) : M bool :=
  let opposite :=
    match position_type with
    | POSITION_TYPE_BUY => ORDER_TYPE_SELL
    | POSITION_TYPE_SELL => ORDER_TYPE_BUY
    end in
  let* price := price_from_tick symbol position_type in
  let req :=
    {| req_action := TRADE_ACTION_DEAL;
       req_position := Some position_ticket;
       req_symbol := symbol;
       req_type := Some opposite;
       req_volume := Some volume;
       req_price := price;
       req_deviation := Some DEVIATION;
       req_magic := MAGIC;
       req_comment := "close reverse (orig closed)";
       req_type_filling := None;
       req_type_time := None;
       req_sl := None;
       req_tp := None |} in
  let* res := order_sendM req in
  ret (order_done res).

(** ** Engine state: the two variables [main] keeps across polls *)

Record Engine := { orig_to_rev : dict; reversed_once : gset Z }.

Definition initial_engine : Engine := {| orig_to_rev := []; reversed_once := ∅ |}.

(** [orig_to_rev[o] = r; reversed_once.add(o)] *)
Definition link (o r : Z) (st : Engine) : Engine :=
  {| orig_to_rev := dict_set o r (orig_to_rev st);
     reversed_once := {[o]} ∪ reversed_once st |}.

(** [orig_to_rev.pop(o, None)] *)
Definition unlink (o : Z) (st : Engine) : Engine :=
  {| orig_to_rev := dict_pop o (orig_to_rev st);
     reversed_once := reversed_once st |}.

(** ** The polling loop body *)

(** The first loop: split the snapshot into [originals] and [reverses]. *)
Definition originals_of (all_positions : list (TradePosition F)) : list (TradePosition F) :=
  List.filter (λ p, negb (is_our_reverse p)) all_positions.

Definition reverses_of (all_positions : list (TradePosition F)) : list (TradePosition F) :=
  List.filter is_our_reverse all_positions.

(** The second loop: rebuild the mapping from the comments.  ([comment_index]
    is written there too and never read; it is left out.) *)
Definition relink (st : Engine) (rp : TradePosition F) : Engine :=
  match parse_original_ticket_from_comment (comment rp) with
  | Some orig_ticket => link orig_ticket (ticket rp) st
  | None => st
  end.

Definition rebuild_mapping (reverses : list (TradePosition F)) (st : Engine) : Engine :=
  fold_left relink reverses st.

(** The two tests at the head of pass 1: the original is neither skipped
    ("already reversed once") nor linked. *)
Definition needs_open (st : Engine) (op : TradePosition F) : bool :=
  negb (bool_decide (ticket op ∈ reversed_once st) && negb (dict_mem (ticket op) (orig_to_rev st)))
  && negb (dict_mem (ticket op) (orig_to_rev st)).

(** [is_our_reverse(p) and parse_original_ticket_from_comment(p.comment) == op.ticket] *)
Definition is_reverse_of (orig_ticket : Z) (p : TradePosition F) : bool :=
  is_our_reverse p
  && bool_decide (parse_original_ticket_from_comment (comment p) = Some orig_ticket).

(** The venue side of pass 1 for one original: send the reverse order, wait,
    and look the new position up by its comment.  The result is the ticket of
    the reverse found, or [None] if any step failed. *)
Definition open_and_locate (op : TradePosition F) : M (option Z) :=
  let* ok := ensure_symbol (symbol op) in
  if negb ok then ret None else
  let reverse_vol := f_round (f_mul (volume op) f_two) 2 in
  let rtype := reverse_type (type op) in
  let rsl := (desired_sltp_for_reverse op).1 in
  let rtp := (desired_sltp_for_reverse op).2 in
  let comment := COMMENT_PREFIX +:+ str_of_int (ticket op) in
  let* order_ticket := send_market_order (symbol op) rtype reverse_vol rsl rtp comment MAGIC in
  match order_ticket with
  | None => ret None
  | Some _ =>
      let* _ := sleepM SETTLE_SECONDS in
      let* new_positions := query (λ v, positions_get_symbol mt5 v (symbol op)) in
      match List.find (is_reverse_of (ticket op)) new_positions with
      | Some p => ret (Some (ticket p))
      | None => ret None
      end
  end.

(** Pass 1, one original. *)
Definition open_reverse (op : TradePosition F) (st : Engine) : M Engine :=
  if needs_open st op then
    let* found := open_and_locate op in
    match found with
    | Some rev_ticket => ret (link (ticket op) rev_ticket st)
    | None => ret st
    end
  else ret st.

Definition opening_pass (originals : list (TradePosition F)) (st : Engine) : M Engine :=
  for_each open_reverse originals st.

(** [{p.ticket: p for p in mt5.positions_get() or []}] *)
Definition pos_by_ticket (positions : list (TradePosition F)) : gmap Z (TradePosition F) :=
  fold_left (λ m p, <[ticket p := p]> m) positions ∅.

(** [get_positions_map()]; the source defines it and [main] builds the same
    map inline. *)
Definition get_positions_map : M (gmap Z (TradePosition F)) :=
  let* positions := query (positions_get mt5) in
  ret (pos_by_ticket positions).

(** One of the two [if]/[elif] blocks that set [need_modify]. *)
Definition level_differs (symbol : string) (desired cur : option F) : M bool :=
  match desired, cur with
  | None, Some _ => ret true
  | None, None => ret false
  | Some _, None => ret true
  | Some d, Some c =>
      let* d' := normalize_price symbol d in
      let* c' := normalize_price symbol c in
      ret (negb (f_eqb d' c'))
  end.

(** "Sync SL/TP" for a live original and its live reverse. *)
Definition sync_sltp (orig_pos rev_pos : TradePosition F) : M unit :=
  let desired_sl := (desired_sltp_for_reverse orig_pos).1 in
  let desired_tp := (desired_sltp_for_reverse orig_pos).2 in
  let cur_sl := level_or_none (sl rev_pos) in
  let cur_tp := level_or_none (tp rev_pos) in
  let* need_sl := level_differs (symbol rev_pos) desired_sl cur_sl in
  let* need_tp := level_differs (symbol rev_pos) desired_tp cur_tp in
  if need_sl || need_tp then
    let* _ := modify_position_sltp (ticket rev_pos) (symbol rev_pos) desired_sl desired_tp in
    ret ()
  else ret ().

(** Pass 2, one pair of [list(orig_to_rev.items())]. *)
Definition sync_pair (snapshot : gmap Z (TradePosition F)) (pair : Z * Z) (st : Engine) : M Engine :=
  let orig_ticket := pair.1 in
  let rev_ticket := pair.2 in
  match snapshot !! orig_ticket with
  | None =>
      let* _ :=
        match snapshot !! rev_ticket with
        | Some rev_pos =>
            close_position (ticket rev_pos) (symbol rev_pos) (volume rev_pos) (type rev_pos)
        | None => ret false
        end in
      ret (unlink orig_ticket st)
  | Some orig_pos =>
      match snapshot !! rev_ticket with
      | None => ret (unlink orig_ticket st)
      | Some rev_pos => let* _ := sync_sltp orig_pos rev_pos in ret st
      end
  end.

Definition maintenance_pass (snapshot : gmap Z (TradePosition F)) (st : Engine) : M Engine :=
  for_each (sync_pair snapshot) (dict_items (orig_to_rev st)) st.

(** One iteration of [while True]. *)
Definition cycle (st : Engine) : M Engine :=
  let* all_positions := query (positions_get mt5) in
  let originals := originals_of all_positions in
  let reverses := reverses_of all_positions in
  let st1 := rebuild_mapping reverses st in
  let* st2 := opening_pass originals st1 in
  let* live := query (positions_get mt5) in
  let* st3 := maintenance_pass (pos_by_ticket live) st2 in
  let* _ := sleepM POLL_SECONDS in
  ret st3.

(** The first [n] iterations of the loop. *)
Fixpoint run (n : nat) (st : Engine) : M Engine :=
  match n with
  | O => ret st
  | S n' => let* st' := cycle st in run n' st'
  end.

(** [main] after a successful start, cut after [n] polls. *)
Definition main (n : nat) : M Engine := run n initial_engine.

(** ** Kinds of command *)

(** An open command for the original [id]: a deal that names no position
    and carries the annotation of [id]. *)
Definition is_open_for (id : Z) (r : TradeRequest F) : Prop :=
  req_action r = TRADE_ACTION_DEAL ∧ req_position r = None
  ∧ req_comment r = COMMENT_PREFIX +:+ str_of_int id.

(** A close command upon position [t]. *)
Definition is_close_of (t : Z) (r : TradeRequest F) : bool :=
  bool_decide (req_action r = TRADE_ACTION_DEAL) && bool_decide (req_position r = Some t).

(** A modify command upon position [t]. *)
Definition is_modify_of (t : Z) (r : TradeRequest F) : bool :=
  bool_decide (req_action r = TRADE_ACTION_SLTP) && bool_decide (req_position r = Some t).

(** How many requests of a list satisfy [f]. *)
Definition count_requests (f : TradeRequest F → bool) (l : list (TradeRequest F)) : nat :=
  length (List.filter f l).

(** ** Vocabulary for the properties *)

Implicit Types (st : Engine) (v : V) (p orig_pos rev_pos : TradePosition F)
  (reverses : list (TradePosition F)) (r : TradeRequest F)
  (snapshot : gmap Z (TradePosition F)).

(** The request of an open command, as [send_market_order] builds it. *)
Definition open_request_shape (symbol : string) (order_type : OrderType) (volume : F)
    (comment : string) (magic : Z) r : Prop :=
  req_action r = TRADE_ACTION_DEAL ∧ req_position r = None ∧ req_symbol r = symbol
  ∧ req_type r = Some order_type ∧ req_volume r = Some volume
  ∧ req_comment r = comment ∧ req_magic r = magic.

(** The request of a close command, as [close_position] builds it. *)
Definition close_request (rev_pos : TradePosition F) (price : option F) : TradeRequest F :=
  {| req_action := TRADE_ACTION_DEAL;
     req_position := Some (ticket rev_pos);
     req_symbol := symbol rev_pos;
     req_type := Some (match type rev_pos with
                       | POSITION_TYPE_BUY => ORDER_TYPE_SELL
                       | POSITION_TYPE_SELL => ORDER_TYPE_BUY
                       end);
     req_volume := Some (volume rev_pos);
     req_price := price;
     req_deviation := Some DEVIATION;
     req_magic := MAGIC;
     req_comment := "close reverse (orig closed)";
     req_type_filling := None;
     req_type_time := None;
     req_sl := None;
     req_tp := None |}.

(** The request of a modify command, as [modify_position_sltp] builds it. *)
Definition modify_request (position_ticket : Z) (symbol : string) (sl tp : F)
  : TradeRequest F :=
  {| req_action := TRADE_ACTION_SLTP;
     req_position := Some position_ticket;
     req_symbol := symbol;
     req_type := None;
     req_volume := None;
     req_price := None;
     req_deviation := None;
     req_magic := MAGIC;
     req_comment := "sync sltp";
     req_type_filling := None;
     req_type_time := None;
     req_sl := Some sl;
     req_tp := Some tp |}.

(** Two levels agree: both unset, or both set and equal after rounding as
    [normalize_price] rounds at venue state [v]. *)
Definition levels_agree (symbol : string) (desired cur : option F) v : Prop :=
  match desired, cur with
  | None, None => True
  | Some d, Some c =>
      f_eqb (value (normalize_price symbol d v)) (value (normalize_price symbol c v))
      = true
  | _, _ => False
  end.

(** [need_modify] for a live pair. *)
Definition need_modify (orig_pos rev_pos : TradePosition F) v : bool :=
  value (level_differs (symbol rev_pos) (desired_sltp_for_reverse orig_pos).1
           (level_or_none (sl rev_pos)) v)
  || value (level_differs (symbol rev_pos) (desired_sltp_for_reverse orig_pos).2
              (level_or_none (tp rev_pos)) v).

(** What pass 2 issues for one pair. *)
Definition pair_requests (snapshot : gmap Z (TradePosition F)) (pair : Z * Z) v
  : list (TradeRequest F) :=
  issued (sync_pair snapshot pair initial_engine v).

(** Both positions of a pair are in the snapshot. *)
Definition both_live snapshot (pair : Z * Z) : bool :=
  match snapshot !! pair.1, snapshot !! pair.2 with
  | Some _, Some _ => true
  | _, _ => false
  end.

(** The engine state after the mapping was rebuilt from the comments. *)
Definition after_rebuild st v : Engine :=
  rebuild_mapping (reverses_of (positions_get mt5 v)) st.

(** Pass 1 as [cycle] runs it. *)
Definition cycle_pass1 st v : Run Engine :=
  opening_pass (originals_of (positions_get mt5 v)) (after_rebuild st v) v.

(** The snapshot pass 2 works on. *)
Definition cycle_live st v : gmap Z (TradePosition F) :=
  pos_by_ticket (positions_get mt5 (venue (cycle_pass1 st v))).

(** Pass 2 as [cycle] runs it. *)
Definition cycle_pass2 st v : Run Engine :=
  maintenance_pass (cycle_live st v) (value (cycle_pass1 st v)) (venue (cycle_pass1 st v)).

(** Every linked original is in the Reversed-Once set, and the table holds
    each original once. *)
Definition engine_ok st : Prop :=
  dict_wf (orig_to_rev st) ∧ ∀ k, k ∈ (orig_to_rev st).*1 → k ∈ reversed_once st.

(** The reverse the comments name for [k], if any (the last one wins),
    else [fallback]. *)
Fixpoint last_claim reverses (k : Z) (fallback : option Z) : option Z :=
  match reverses with
  | [] => fallback
  | rp :: l =>
      last_claim l k
        (if bool_decide (parse_original_ticket_from_comment (comment rp) = Some k)
         then Some (ticket rp) else fallback)
  end.

(** No venue-side change: the calls that could change the venue leave it as
    it is, so every query gets the same answer throughout. *)
Definition venue_never_changes : Prop :=
  (∀ v symbol, (symbol_select mt5 v symbol).2 = v)
  ∧ (∀ v r, (order_send mt5 v r).2 = v)
  ∧ (∀ v seconds, sleep mt5 v seconds = v).

(** The reverse volume in the spec's words: twice the original's volume,
    rounded to the instrument's volume precision. *)
Definition spec_reverse_volume (volume_digits : Z) (original_volume : F) : F :=
  f_round (f_mul original_volume f_two) volume_digits.



(** An open command for the original [id], as a test. *)
Definition is_open_forb (id : Z) r : bool :=
  bool_decide (req_action r = TRADE_ACTION_DEAL)
  && bool_decide (req_position r = None)
  && bool_decide (req_comment r = annotation id).

(** The price [price_from_tick] quotes for a side: buy at ask, sell at bid. *)
Definition quote_for (position_type : PositionType) (tick : Tick F) : F :=
  match position_type with
  | POSITION_TYPE_BUY => ask tick
  | POSITION_TYPE_SELL => bid tick
  end.

(** The position side [send_market_order] quotes an order at. *)
Definition position_side (order_type : OrderType) : PositionType :=
  match order_type with
  | ORDER_TYPE_BUY => POSITION_TYPE_BUY
  | ORDER_TYPE_SELL => POSITION_TYPE_SELL
  end.


End Program.

Arguments value {F V A} _.
Arguments venue {F V A} _.
Arguments issued {F V A} _.
Arguments M : clear implicits.

(** * A concrete venue for examples

    Prices as exact rationals, and a venue whose answers never change. *)

Definition round_half_even (q : Q) : Z :=
  let n := Qnum q in
  let d := Zpos (Qden q) in
  let fl := n / d in
  let r := n mod d in
  if 2 * r <? d then fl
  else if d <? 2 * r then fl + 1
  else if Z.even fl then fl else fl + 1.

(** [round(x, n)] on exact decimals: to the nearest multiple of [10^-n],
    ties to even. *)
Definition Q_round (x : Q) (n : Z) : Q :=
  let scale := inject_Z (10 ^ Z.abs n) in
  if 0 <=? n
  then Qred (inject_Z (round_half_even (x * scale)) / scale)
  else Qred (inject_Z (round_half_even (x / scale)) * scale).

Global Instance Q_float : PyFloat Q := {|
  f_zero := 0%Q;
  f_two := 2%Q;
  f_eqb := Qeq_bool;
  f_ltb := λ x y, negb (Qle_bool y x);
  f_mul := λ x y, Qred (x * y);
  f_round := Q_round;
|}.

(** The canned answers of a venue that never changes. *)
Record Frozen := {
  fz_positions : list (TradePosition Q);
  fz_digits : option Z;
  fz_tick : option (Tick Q);
  fz_result : option OrderSendResult;
}.

Definition frozen_gateway : Gateway Q Frozen := {|
  positions_get v := fz_positions v;
  positions_get_symbol v s := List.filter (λ p, String.eqb (symbol p) s) (fz_positions v);
  symbol_info v s := option_map (λ d, {| digits := d; visible := true |}) (fz_digits v);
  symbol_info_tick v s := fz_tick v;
  symbol_select v s := (true, v);
  order_send v r := (fz_result v, v);
  sleep v _ := v;
|}.

Definition position (t : Z) (ty : PositionType) (vol s_l t_p : Q) (m : Z) (c : string)
  : TradePosition Q :=
  {| ticket := t; symbol := "EURUSD"; type := ty; volume := vol;
     sl := s_l; tp := t_p; magic := m; comment := c |}.

(** A long original #100 (volume 1.0, stop-loss 1.0950, take-profit 1.1050)
    on a venue that rejects every order. *)
Definition original_100 : TradePosition Q :=
  position 100 POSITION_TYPE_BUY 1 (1095 # 1000) (1105 # 1000) 0 "".

Definition quotes : Tick Q := {| bid := (11 # 10)%Q; ask := (11001 # 10000)%Q |}.

Definition rejecting_venue : Frozen :=
  {| fz_positions := [original_100];
     fz_digits := Some 5;
     fz_tick := Some quotes;
     fz_result := None |}.

(** The same original on a venue that accepts the order (without showing the
    new position yet). *)
Definition accepting_venue : Frozen :=
  {| fz_positions := [original_100];
     fz_digits := Some 5;
     fz_tick := Some quotes;
     fz_result := Some {| retcode := TRADE_RETCODE_DONE; order := 7; deal := 8 |} |}.

(** An engine that has reversed #100 once and no longer tracks a reverse. *)
Definition reversed_100 : Engine := {| orig_to_rev := []; reversed_once := {[100]} |}.

(** Two reverses, #10 and #11, that both claim the original #1, which is not
    live. *)
Definition reverse_10 : TradePosition Q :=
  position 10 POSITION_TYPE_SELL 2 0 0 MAGIC "REV of 1".

Definition reverse_11 : TradePosition Q :=
  position 11 POSITION_TYPE_SELL 2 0 0 MAGIC "REV of 1".

Definition ambiguous_venue : Frozen :=
  {| fz_positions := [reverse_10; reverse_11];
     fz_digits := Some 5;
     fz_tick := Some quotes;
     fz_result := None |}.

(** The reverse #11 alone: its original #1 is gone. *)
Definition orphan_venue : Frozen :=
  {| fz_positions := [reverse_11];
     fz_digits := Some 5;
     fz_tick := Some quotes;
     fz_result := None |}.

(** An original whose take-profit is negative and whose stop-loss is zero. *)
Definition original_negative_tp : TradePosition Q :=
  position 200 POSITION_TYPE_BUY 1 0 (-1) 0 "".

(** An original of 0.001 lots, on an instrument traded in steps of 0.001. *)
Definition original_small : TradePosition Q :=
  position 300 POSITION_TYPE_BUY (1 # 1000) 0 0 0 "".

Definition small_lot_venue : Frozen :=
  {| fz_positions := [original_small];
     fz_digits := Some 5;
     fz_tick := Some quotes;
     fz_result := None |}.

(** A live pair whose raw levels differ and agree once rounded to 4 digits. *)
Definition original_raw : TradePosition Q :=
  position 400 POSITION_TYPE_BUY 1 (109501 # 100000) (110501 # 100000) 0 "".

Definition reverse_raw : TradePosition Q :=
  position 401 POSITION_TYPE_SELL 2 (110499 # 100000) (109499 # 100000) MAGIC "REV of 400".

Definition four_digit_venue : Frozen :=
  {| fz_positions := [original_raw; reverse_raw];
     fz_digits := Some 4;
     fz_tick := Some quotes;
     fz_result := None |}.

(** A position that carries the bot's owner tag and a foreign comment. *)
Definition tagged_manual : TradePosition Q :=
  position 500 POSITION_TYPE_SELL 1 0 0 MAGIC "manual".

Definition tagged_venue : Frozen :=
  {| fz_positions := [tagged_manual];
     fz_digits := Some 5;
     fz_tick := Some quotes;
     fz_result := None |}.

(** The annotation of #12 followed by a line feed. *)
Definition annotation_12_newline : string :=
  COMMENT_PREFIX +:+ "12" +:+ String newline "".

(** The original #100 on a venue that does not know its symbol. *)
Definition unknown_symbol_venue : Frozen :=
  {| fz_positions := [original_100];
     fz_digits := None;
     fz_tick := Some quotes;
     fz_result := None |}.

(** The position the venue would list for the reverse of #100. *)
Definition reverse_of_100 : TradePosition Q :=
  position 101 POSITION_TYPE_SELL 2 (1105 # 1000) (1095 # 1000) MAGIC "REV of 100".

(** The open command the bot submits for #100. *)
Definition open_request_100 : TradeRequest Q :=
  {| req_action := TRADE_ACTION_DEAL;
     req_position := None;
     req_symbol := "EURUSD";
     req_type := Some ORDER_TYPE_SELL;
     req_volume := Some 2%Q;
     req_price := Some (11 # 10)%Q;
     req_deviation := Some DEVIATION;
     req_magic := MAGIC;
     req_comment := "REV of 100";
     req_type_filling := Some ORDER_FILLING_FOK;
     req_type_time := Some ORDER_TIME_GTC;
     req_sl := Some (221 # 200)%Q;
     req_tp := Some (219 # 200)%Q |}.

(** An engine that tracks the pair (#400, #401). *)
Definition tracking_400_401 : Engine :=
  {| orig_to_rev := [(400, 401)]; reversed_once := {[400]} |}.

Local Close Scope string_scope.

(** * Facts about the string helpers *)

Lemma strip_prefix_app (p s : string) : strip_prefix p (p +:+ s) = Some s.
Proof.
  induction p as [|a p IH]; simpl.
  - by destruct s.
  - by rewrite Ascii.eqb_refl.
Qed.

Lemma strip_prefix_Some (p s r : string) : strip_prefix p s = Some r → s = p +:+ r.
Proof.
  revert s; induction p as [|a p IH]; intros s; simpl.
  - by intros [= ->].
  - destruct s as [|b s]; [done|].
    destruct (Ascii.eqb_spec a b) as [->|]; [|done].
    intros Hs. by rewrite (IH _ Hs).
Qed.

Lemma all_digits_string_of_uint (d : uint) : all_digits (NilEmpty.string_of_uint d) = true.
Proof. induction d; simpl; auto. Qed.

Lemma is_digit_not_newline (c : ascii) : is_digit c = true → Ascii.eqb c newline = false.
Proof.
  intros Hc. destruct (Ascii.eqb_spec c newline) as [->|]; [|done].
  by vm_compute in Hc.
Qed.

Lemma drop_final_newline_digits (s : string) :
  all_digits s = true → drop_final_newline s = None.
Proof.
  induction s as [|c s IH]; [done|].
  simpl. intros [Hc Hs]%andb_true_iff.
  destruct s as [|c' s'].
  - by rewrite is_digit_not_newline.
  - by rewrite IH.
Qed.

Lemma int_of_digits_acc_uint (d : uint) (acc : positive) :
  int_of_digits_acc (NilEmpty.string_of_uint d) (Z.pos acc) = Z.pos (Pos.of_uint_acc d acc).
Proof.
  revert acc; induction d; intros acc; simpl; [done|..];
    (etrans; [|apply IHd]); f_equal;
    match goal with
    | |- context [digit_value ?c] =>
        let v := eval vm_compute in (digit_value c) in change (digit_value c) with v
    end; lia.
Qed.

Lemma int_of_str_uint (d : uint) : int_of_str (NilEmpty.string_of_uint d) = Z.of_uint d.
Proof.
  unfold int_of_str, Z.of_uint.
  induction d; simpl; [done| exact IHd |..];
    apply (int_of_digits_acc_uint d).
Qed.

(** [str] of a non-negative integer is a non-empty run of digits that [int]
    reads back. *)
Lemma str_of_int_nonneg (n : Z) :
  0 ≤ n → ∃ d, d ≠ Nil ∧ str_of_int n = NilEmpty.string_of_uint d ∧ Z.of_uint d = n.
Proof.
  intros Hn. destruct n as [|p|p]; [| |lia].
  - exists (D0 Nil). by repeat split.
  - exists (Pos.to_uint p). split; [|split].
    + intros Hnil.
      pose proof (DecimalPos.Unsigned.of_to p) as Hp. rewrite Hnil in Hp. done.
    + unfold str_of_int. simpl. unfold NilZero.string_of_uint.
      destruct (Pos.to_uint p) eqn:E; try done.
      pose proof (DecimalPos.Unsigned.of_to p) as Hp. rewrite E in Hp. done.
    + unfold Z.of_uint. by rewrite DecimalPos.Unsigned.of_to.
Qed.

Lemma nonempty_digits_string_of_uint (d : uint) :
  d ≠ Nil → nonempty_digits (NilEmpty.string_of_uint d) = true.
Proof.
  intros Hd. pose proof (all_digits_string_of_uint d) as Hall.
  destruct d; [done|..]; exact Hall.
Qed.

(** Parsing the annotation of a non-negative ticket gives the ticket back. *)
Lemma parse_annotation (n : Z) :
  0 ≤ n → parse_original_ticket_from_comment (COMMENT_PREFIX +:+ str_of_int n) = Some n.
Proof.
  intros Hn. destruct (str_of_int_nonneg n Hn) as (d & Hd & Hstr & Hval).
  unfold parse_original_ticket_from_comment, match_ticket_digits.
  rewrite strip_prefix_app, Hstr.
  rewrite drop_final_newline_digits by apply all_digits_string_of_uint.
  rewrite nonempty_digits_string_of_uint by done.
  by rewrite int_of_str_uint, Hval.
Qed.

Lemma str_of_int_inj (a b : Z) : str_of_int a = str_of_int b → a = b.
Proof.
  unfold str_of_int. intros Hab.
  assert (Hnn : ∀ z, Z.to_int z ≠ Pos Nil ∧ Z.to_int z ≠ Neg Nil).
  { intros [|p|p]; simpl; split; try done; intros [= Hp];
      pose proof (DecimalPos.Unsigned.of_to p) as Hq; rewrite Hp in Hq; done. }
  assert (Hint : Some (Z.to_int a) = Some (Z.to_int b)).
  { rewrite <- (NilZero.isi (Z.to_int a)), <- (NilZero.isi (Z.to_int b));
      [by rewrite Hab | apply Hnn..]. }
  injection Hint as Hint.
  by rewrite <- (DecimalZ.of_to a), <- (DecimalZ.of_to b), Hint.
Qed.

Lemma append_inj_r (p s t : string) : p +:+ s = p +:+ t → s = t.
Proof. induction p; simpl; [done|]. intros [= ?]; auto. Qed.

Lemma annotation_inj (a b : Z) :
  COMMENT_PREFIX +:+ str_of_int a = COMMENT_PREFIX +:+ str_of_int b → a = b.
Proof. intros Hab. by apply str_of_int_inj, (append_inj_r COMMENT_PREFIX). Qed.

(** * Facts about [dict] *)

Lemma dict_mem_get (k : Z) (d : dict) : dict_mem k d = true ↔ is_Some (dict_get k d).
Proof.
  induction d as [|[k' v'] d IH]; simpl.
  - split; [done | by intros [? ?]].
  - destruct (decide (k = k')); [|done]. split; eauto.
Qed.

Lemma dict_mem_false_get (k : Z) (d : dict) : dict_mem k d = false ↔ dict_get k d = None.
Proof.
  rewrite <- not_true_iff_false, dict_mem_get, <- eq_None_not_Some. done.
Qed.

Lemma dict_get_keys (k : Z) (d : dict) : is_Some (dict_get k d) ↔ k ∈ d.*1.
Proof.
  induction d as [|[k' v'] d IH]; simpl.
  - split; [by intros [? ?] | by intros ?%elem_of_nil].
  - rewrite elem_of_cons. destruct (decide (k = k')) as [->|Hne].
    + split; [by left | eauto].
    + rewrite IH. split; [by right | by intros [?|?]].
Qed.

Lemma dict_get_elem (k v : Z) (d : dict) : dict_get k d = Some v → (k, v) ∈ d.
Proof.
  induction d as [|[k' v'] d IH]; simpl; [done|].
  destruct (decide (k = k')) as [->|Hne].
  - intros [= ->]. left.
  - intros Hg. right. auto.
Qed.

Lemma dict_elem_get (k v : Z) (d : dict) : dict_wf d → (k, v) ∈ d → dict_get k d = Some v.
Proof.
  unfold dict_wf. induction d as [|[k' v'] d IH]; simpl.
  - by intros _ ?%elem_of_nil.
  - intros [Hk' Hwf]%NoDup_cons [[= -> ->]|Hin]%elem_of_cons.
    + by rewrite decide_True.
    + destruct (decide (k = k')) as [->|Hne]; [|auto].
      exfalso. apply Hk'. by apply (list_elem_of_fmap_2 fst) in Hin.
Qed.

Lemma dict_get_set (k k' v : Z) (d : dict) :
  dict_get k (dict_set k' v d) = if decide (k = k') then Some v else dict_get k d.
Proof.
  induction d as [|[k0 v0] d IH]; simpl.
  - done.
  - destruct (decide (k' = k0)) as [->|Hne]; simpl.
    + destruct (decide (k = k0)); done.
    + destruct (decide (k = k0)) as [->|]; [by rewrite decide_False|done].
Qed.

Lemma dict_get_pop (k k' : Z) (d : dict) :
  dict_get k (dict_pop k' d) = if decide (k = k') then None else dict_get k d.
Proof.
  induction d as [|[k0 v0] d IH]; simpl.
  - by destruct (decide (k = k')).
  - destruct (decide (k' = k0)) as [->|Hne]; simpl.
    + rewrite IH. destruct (decide (k = k0)); done.
    + destruct (decide (k = k0)) as [->|]; [by rewrite decide_False|done].
Qed.

Lemma dict_elem_pop (k v k' : Z) (d : dict) :
  (k, v) ∈ dict_pop k' d ↔ (k, v) ∈ d ∧ k ≠ k'.
Proof.
  induction d as [|[k0 v0] d IH]; simpl.
  - split; [by intros ?%elem_of_nil | by intros [?%elem_of_nil _]].
  - destruct (decide (k' = k0)) as [->|Hne]; rewrite ?elem_of_cons, IH; naive_solver.
Qed.

Lemma dict_keys_set (k v : Z) (d : dict) (x : Z) :
  x ∈ (dict_set k v d).*1 ↔ x = k ∨ x ∈ d.*1.
Proof.
  induction d as [|[k0 v0] d IH]; simpl.
  - rewrite list_elem_of_singleton, elem_of_nil. naive_solver.
  - destruct (decide (k = k0)) as [->|Hne]; simpl; rewrite !elem_of_cons, ?IH; naive_solver.
Qed.

Lemma dict_keys_pop (k : Z) (d : dict) (x : Z) :
  x ∈ (dict_pop k d).*1 ↔ x ≠ k ∧ x ∈ d.*1.
Proof.
  induction d as [|[k0 v0] d IH]; simpl.
  - rewrite elem_of_nil. naive_solver.
  - destruct (decide (k = k0)) as [->|Hne]; simpl; rewrite ?elem_of_cons, IH; naive_solver.
Qed.

Lemma dict_wf_set (k v : Z) (d : dict) : dict_wf d → dict_wf (dict_set k v d).
Proof.
  unfold dict_wf. induction d as [|[k0 v0] d IH]; simpl.
  - intros _. apply NoDup_singleton.
  - intros [Hk0 Hwf]%NoDup_cons. destruct (decide (k = k0)) as [->|Hne]; simpl.
    + by apply NoDup_cons.
    + apply NoDup_cons. split; [|auto].
      rewrite dict_keys_set. naive_solver.
Qed.

Lemma dict_wf_pop (k : Z) (d : dict) : dict_wf d → dict_wf (dict_pop k d).
Proof.
  unfold dict_wf. induction d as [|[k0 v0] d IH]; simpl; [done|].
  intros [Hk0 Hwf]%NoDup_cons. destruct (decide (k = k0)) as [->|Hne]; simpl; [auto|].
  apply NoDup_cons. split; [|auto]. rewrite dict_keys_pop. naive_solver.
Qed.

Lemma dict_wf_nil : dict_wf [].
Proof. apply NoDup_nil_2. Qed.

(** * The annotation parser *)

Lemma drop_final_newline_Some (s body : string) :
  drop_final_newline s = Some body → s = body +:+ String newline EmptyString.
Proof.
  revert body. induction s as [|c s IH]; intros body; [done|].
  cbn [drop_final_newline]. destruct s as [|c' s'].
  - destruct (Ascii.eqb_spec c newline) as [->|]; [|done]. by intros [= <-].
  - destruct (drop_final_newline (String c' s')) as [b|]; [|done].
    intros [= <-]. by rewrite (IH b eq_refl) at 1.
Qed.

(** What the parser accepts: the prefix, a non-empty run of digits, and
    possibly one final line feed. *)
Lemma parse_Some_shape (comment : string) (n : Z) :
  parse_original_ticket_from_comment comment = Some n →
  ∃ digits, nonempty_digits digits = true ∧ n = int_of_str digits
    ∧ (comment = COMMENT_PREFIX +:+ digits
       ∨ comment = COMMENT_PREFIX +:+ (digits +:+ String newline EmptyString)).
Proof.
  unfold parse_original_ticket_from_comment, match_ticket_digits.
  destruct (strip_prefix COMMENT_PREFIX comment) as [rest|] eqn:Hrest; [|done].
  apply strip_prefix_Some in Hrest.
  destruct (drop_final_newline rest) as [body|] eqn:Hbody.
  - apply drop_final_newline_Some in Hbody.
    destruct (nonempty_digits body) eqn:Hd; [|done].
    intros [= <-]. exists body. repeat split; [done|]. right. by rewrite Hrest, Hbody.
  - destruct (nonempty_digits rest) eqn:Hd; [|done].
    intros [= <-]. exists rest. repeat split; [done|]. by left.
Qed.

(** C8.  Formatting then parsing gives the ticket back, for every
    non-negative ticket.  But the parser also accepts a string that is not
    the prefix followed by digits: the annotation of #12 followed by a line
    feed parses to 12 (the [$] of the pattern matches before a final line
    feed), so "no result for every other string" fails there. *)
Theorem annotation_round_trip_and_newline :
  (∀ n, 0 ≤ n →
        parse_original_ticket_from_comment (COMMENT_PREFIX +:+ str_of_int n) = Some n)
  ∧ spec_is_annotation annotation_12_newline = false
  ∧ parse_original_ticket_from_comment annotation_12_newline = Some 12.
Proof. split; [apply parse_annotation | by vm_compute]. Qed.

(** ** The language the parser accepts *)


Lemma nonempty_digits_all (s : string) : nonempty_digits s = true → all_digits s = true.
Proof. by destruct s. Qed.


Lemma int_of_digits_acc_nonneg (s : string) (acc : Z) :
  all_digits s = true → 0 ≤ acc → 0 ≤ int_of_digits_acc s acc.
Proof.
  revert acc. induction s as [|c s IH]; intros acc; simpl; [done|].
  intros [Hc Hs]%andb_true_iff Hacc. apply IH; [done|].
  unfold is_digit in Hc. apply andb_true_iff in Hc as [Hlo _].
  apply Nat.leb_le in Hlo. unfold digit_value. lia.
Qed.

(** X2.  A ticket the parser returns is never negative. *)
Theorem parsed_ticket_nonnegative (comment : string) (n : Z) :
  parse_original_ticket_from_comment comment = Some n → 0 ≤ n.
Proof.
  intros (digits & Hd & -> & _)%parse_Some_shape.
  apply int_of_digits_acc_nonneg; [by apply nonempty_digits_all | done].
Qed.

Lemma str_of_int_negative (p : positive) :
  ∃ d, d ≠ Nil ∧ str_of_int (Z.neg p) = String "-" (NilEmpty.string_of_uint d).
Proof.
  exists (Pos.to_uint p). split.
  - intros Hnil. pose proof (DecimalPos.Unsigned.of_to p) as Hp. by rewrite Hnil in Hp.
  - unfold str_of_int. simpl. unfold NilZero.string_of_uint.
    destruct (Pos.to_uint p) eqn:E; try done.
    pose proof (DecimalPos.Unsigned.of_to p) as Hp. by rewrite E in Hp.
Qed.

Lemma parse_negative_annotation (p : positive) :
  parse_original_ticket_from_comment (annotation (Z.neg p)) = None.
Proof.
  unfold annotation.
  destruct (str_of_int_negative p) as (d & Hd & ->).
  unfold parse_original_ticket_from_comment, match_ticket_digits.
  rewrite strip_prefix_app.
  assert (Hdrop : drop_final_newline (String "-" (NilEmpty.string_of_uint d)) = None).
  { cbn [drop_final_newline].
    rewrite drop_final_newline_digits by apply all_digits_string_of_uint.
    by destruct d. }
  by rewrite Hdrop.
Qed.

(** X3.  Writing the annotation of a ticket and parsing it back gives the
    ticket when it is not negative, and no result when it is negative (its
    decimal form starts with a minus sign, which the pattern rejects). *)
Theorem format_then_parse (n : Z) :
  parse_original_ticket_from_comment (annotation n)
  = if decide (0 ≤ n) then Some n else None.
Proof.
  case_decide as Hn; [by apply parse_annotation|].
  destruct n as [|p|p]; [lia..|]. apply parse_negative_annotation.
Qed.

(** X4.  Two tickets have the same annotation only if they are the same
    ticket, so an annotation that parses to [b] was written for [b]. *)
Theorem annotation_identifies_ticket (a b : Z) :
  (annotation a = annotation b ↔ a = b)
  ∧ (parse_original_ticket_from_comment (annotation a) = Some b → a = b).
Proof.
  split.
  - split; [apply annotation_inj | by intros ->].
  - destruct a as [|p|p].
    + unfold annotation. rewrite parse_annotation by done. by intros [= <-].
    + unfold annotation. rewrite parse_annotation by done. by intros [= <-].
    + by rewrite parse_negative_annotation.
Qed.

(** * Properties of the program *)

Section Proofs.

Context {F : Type} `{PyFloat F} {V : Type} (mt5 : Gateway F V).

Implicit Types (st : Engine) (v : V) (op p rp orig_pos rev_pos : TradePosition F)
  (originals reverses : list (TradePosition F)) (r : TradeRequest F)
  (snapshot : gmap Z (TradePosition F)).

Local Arguments bind : simpl never.
Local Arguments ret : simpl never.

(** ** The effect structure *)

Lemma issued_bind {A B} (m : M F V A) (f : A → M F V B) v :
  issued (bind m f v) = issued (m v) ++ issued (f (value (m v)) (venue (m v))).
Proof. reflexivity. Qed.

Lemma venue_bind {A B} (m : M F V A) (f : A → M F V B) v :
  venue (bind m f v) = venue (f (value (m v)) (venue (m v))).
Proof. reflexivity. Qed.

Lemma value_bind {A B} (m : M F V A) (f : A → M F V B) v :
  value (bind m f v) = value (f (value (m v)) (venue (m v))).
Proof. reflexivity. Qed.

Lemma issued_ret {A} (a : A) v : issued (ret (F:=F) a v) = [].
Proof. reflexivity. Qed.

Lemma venue_ret {A} (a : A) v : venue (ret (F:=F) a v) = v.
Proof. reflexivity. Qed.

Lemma value_ret {A} (a : A) v : value (ret (F:=F) a v) = a.
Proof. reflexivity. Qed.

Lemma issued_query {A} (q : V → A) v : issued (query (F:=F) q v) = [].
Proof. reflexivity. Qed.

Lemma venue_query {A} (q : V → A) v : venue (query (F:=F) q v) = v.
Proof. reflexivity. Qed.

Lemma value_query {A} (q : V → A) v : value (query (F:=F) q v) = q v.
Proof. reflexivity. Qed.

Create Rewrite HintDb run.
Lemma issued_order_sendM r v : issued (order_sendM mt5 r v) = [r].
Proof. reflexivity. Qed.

Lemma issued_sleepM seconds v : issued (sleepM mt5 seconds v) = [].
Proof. reflexivity. Qed.

Lemma issued_symbol_selectM symbol v : issued (symbol_selectM mt5 symbol v) = [].
Proof. reflexivity. Qed.

Hint Rewrite @issued_bind @venue_bind @value_bind @issued_ret @venue_ret @value_ret
  @issued_query @venue_query @value_query
  issued_order_sendM issued_sleepM issued_symbol_selectM @app_nil_l @app_nil_r : run.

Ltac msimpl := autorewrite with run.
Ltac mcases := repeat (case_match; msimpl).

(** ** What each helper issues *)

Lemma issued_for_each {A S} (P : TradeRequest F → Prop) (body : A → S → M F V S)
    (l : list A) (s : S) v :
  (∀ a s v, Forall P (issued (body a s v))) →
  Forall P (issued (for_each body l s v)).
Proof.
  intros Hbody. revert s v. induction l as [|a l IH]; intros s v; cbn [for_each].
  - constructor.
  - rewrite ?issued_bind. apply Forall_app. split; [apply Hbody | apply IH].
Qed.

Lemma issued_normalize_price symbol price v :
  issued (normalize_price mt5 symbol price v) = [].
Proof. unfold normalize_price. msimpl. by case_match. Qed.

Lemma venue_normalize_price symbol price v :
  venue (normalize_price mt5 symbol price v) = v.
Proof. unfold normalize_price. msimpl. by case_match. Qed.

Lemma value_normalize_price symbol price v :
  value (normalize_price mt5 symbol price v) =
    match symbol_info mt5 v symbol with
    | None => price
    | Some info => f_round price (digits info)
    end.
Proof. unfold normalize_price. msimpl. by case_match. Qed.

Hint Rewrite issued_normalize_price venue_normalize_price : run.

Lemma issued_normalize_opt symbol x v : issued (normalize_opt mt5 symbol x v) = [].
Proof. destruct x; unfold normalize_opt; by msimpl. Qed.

Lemma venue_normalize_opt symbol x v : venue (normalize_opt mt5 symbol x v) = v.
Proof. destruct x; unfold normalize_opt; by msimpl. Qed.

Lemma issued_normalize_or_zero symbol x v : issued (normalize_or_zero mt5 symbol x v) = [].
Proof. destruct x; unfold normalize_or_zero; by msimpl. Qed.

Lemma venue_normalize_or_zero symbol x v : venue (normalize_or_zero mt5 symbol x v) = v.
Proof. destruct x; unfold normalize_or_zero; by msimpl. Qed.

Lemma issued_price_from_tick symbol ty v : issued (price_from_tick mt5 symbol ty v) = [].
Proof. unfold price_from_tick. msimpl. by repeat case_match. Qed.

Lemma venue_price_from_tick symbol ty v : venue (price_from_tick mt5 symbol ty v) = v.
Proof. unfold price_from_tick. msimpl. by repeat case_match. Qed.

Lemma issued_ensure_symbol symbol v : issued (ensure_symbol mt5 symbol v) = [].
Proof. unfold ensure_symbol. msimpl. by repeat case_match. Qed.

Hint Rewrite issued_normalize_opt venue_normalize_opt issued_normalize_or_zero
  venue_normalize_or_zero issued_price_from_tick venue_price_from_tick
  issued_ensure_symbol : run.

Lemma send_market_order_issued symbol order_type volume sl tp comment magic v :
  Forall (open_request_shape symbol order_type volume comment magic)
    (issued (send_market_order mt5 symbol order_type volume sl tp comment magic v)).
Proof.
  unfold send_market_order. msimpl.
  destruct (value (ensure_symbol mt5 symbol v)); cbn [negb]; [|by msimpl].
  msimpl.
  match goal with |- context [value (price_from_tick mt5 ?s ?t ?w)] =>
    destruct (value (price_from_tick mt5 s t w)) as [price|]; [|by msimpl]
  end.
  msimpl. constructor; [by repeat split|].
  repeat case_match; by msimpl.
Qed.

Lemma value_for_each_inv {A S} (I : S → Prop) (body : A → S → M F V S)
    (l : list A) (s : S) v :
  (∀ a s v, I s → I (value (body a s v))) →
  I s → I (value (for_each body l s v)).
Proof.
  intros Hbody. revert s v. induction l as [|a l IH]; intros s v Hs; cbn [for_each].
  - done.
  - rewrite ?value_bind. apply IH, Hbody, Hs.
Qed.

(** ** Pass 1 *)

Lemma open_and_locate_issued op v :
  Forall (open_request_shape (symbol op) (reverse_type (type op))
            (f_round (f_mul (volume op) f_two) 2)
            (COMMENT_PREFIX +:+ str_of_int (ticket op)) MAGIC)
    (issued (open_and_locate mt5 op v)).
Proof.
  unfold open_and_locate. msimpl.
  destruct (value (ensure_symbol mt5 (symbol op) v)); cbn [negb]; [|by msimpl].
  msimpl. apply Forall_app. split; [apply send_market_order_issued|].
  mcases; done.
Qed.

Lemma needs_open_true st op :
  needs_open st op = true ↔
  ((ticket op ∉ reversed_once st) ∧ dict_get (ticket op) (orig_to_rev st) = None).
Proof.
  unfold needs_open. rewrite <- dict_mem_false_get.
  destruct (dict_mem (ticket op) (orig_to_rev st)); simpl.
  - rewrite andb_false_r. naive_solver.
  - rewrite !andb_true_r, negb_true_iff, bool_decide_eq_false. naive_solver.
Qed.

Lemma open_reverse_skip op st v :
  needs_open st op = false → open_reverse mt5 op st v = ret st v.
Proof. unfold open_reverse. by intros ->. Qed.

Lemma open_reverse_issued op st v :
  Forall (open_request_shape (symbol op) (reverse_type (type op))
            (f_round (f_mul (volume op) f_two) 2)
            (COMMENT_PREFIX +:+ str_of_int (ticket op)) MAGIC)
    (issued (open_reverse mt5 op st v)).
Proof.
  unfold open_reverse. destruct (needs_open st op); [|by msimpl].
  msimpl. apply Forall_app. split; [apply open_and_locate_issued|].
  case_match; by msimpl.
Qed.

(** Pass 1 either leaves the engine alone or links the original to the
    reverse it found. *)
Lemma open_reverse_value op st v :
  value (open_reverse mt5 op st v) =
    if needs_open st op
    then match value (open_and_locate mt5 op v) with
         | Some rev_ticket => link (ticket op) rev_ticket st
         | None => st
         end
    else st.
Proof.
  unfold open_reverse. destruct (needs_open st op); [|done].
  msimpl. by case_match.
Qed.

(** ** Pass 2 *)

Lemma close_position_issued rev_pos v :
  issued (close_position mt5 (ticket rev_pos) (symbol rev_pos) (volume rev_pos)
            (type rev_pos) v)
  = [close_request rev_pos (value (price_from_tick mt5 (symbol rev_pos) (type rev_pos) v))].
Proof. unfold close_position. by msimpl. Qed.

Lemma modify_position_sltp_issued t symbol sl tp v :
  issued (modify_position_sltp mt5 t symbol sl tp v)
  = [modify_request t symbol (value (normalize_or_zero mt5 symbol sl v))
       (value (normalize_or_zero mt5 symbol tp v))].
Proof. unfold modify_position_sltp. by msimpl. Qed.

Lemma issued_level_differs symbol desired cur v :
  issued (level_differs mt5 symbol desired cur v) = [].
Proof. unfold level_differs. repeat case_match; by msimpl. Qed.

Lemma venue_level_differs symbol desired cur v :
  venue (level_differs mt5 symbol desired cur v) = v.
Proof. unfold level_differs. repeat case_match; by msimpl. Qed.

Hint Rewrite issued_level_differs venue_level_differs : run.

Lemma sync_sltp_issued orig_pos rev_pos v :
  issued (sync_sltp mt5 orig_pos rev_pos v) =
    if need_modify mt5 orig_pos rev_pos v
    then [modify_request (ticket rev_pos) (symbol rev_pos)
            (value (normalize_or_zero mt5 (symbol rev_pos)
                      (desired_sltp_for_reverse orig_pos).1 v))
            (value (normalize_or_zero mt5 (symbol rev_pos)
                      (desired_sltp_for_reverse orig_pos).2 v))]
    else [].
Proof.
  unfold sync_sltp, need_modify. msimpl.
  case_match; msimpl; [|done].
  by rewrite modify_position_sltp_issued.
Qed.

Lemma sync_pair_issued snapshot pair st v :
  issued (sync_pair mt5 snapshot pair st v) = pair_requests mt5 snapshot pair v.
Proof.
  unfold pair_requests, sync_pair. repeat case_match; by msimpl.
Qed.

Lemma sync_pair_value snapshot pair st v :
  value (sync_pair mt5 snapshot pair st v) =
    match snapshot !! pair.1, snapshot !! pair.2 with
    | Some _, Some _ => st
    | _, _ => unlink pair.1 st
    end.
Proof. unfold sync_pair. repeat case_match; by msimpl. Qed.

Lemma pair_requests_closed snapshot o rt v :
  snapshot !! o = None →
  pair_requests mt5 snapshot (o, rt) v =
    match snapshot !! rt with
    | Some rev_pos =>
        [close_request rev_pos
           (value (price_from_tick mt5 (symbol rev_pos) (type rev_pos) v))]
    | None => []
    end.
Proof.
  intros Ho. unfold pair_requests, sync_pair. cbn [fst snd]. rewrite Ho.
  case_match; msimpl; [|done]. by rewrite close_position_issued.
Qed.

Lemma pair_requests_live snapshot o rt orig_pos rev_pos v :
  snapshot !! o = Some orig_pos → snapshot !! rt = Some rev_pos →
  pair_requests mt5 snapshot (o, rt) v = issued (sync_sltp mt5 orig_pos rev_pos v).
Proof.
  intros Ho Hr. unfold pair_requests, sync_pair. cbn [fst snd]. rewrite Ho, Hr.
  by msimpl.
Qed.

Lemma pair_requests_rev_gone snapshot o rt v :
  snapshot !! rt = None → pair_requests mt5 snapshot (o, rt) v = [].
Proof.
  intros Hr. unfold pair_requests, sync_pair. cbn [fst snd]. rewrite Hr.
  case_match; by msimpl.
Qed.


Lemma pair_requests_have_position snapshot pair v :
  Forall (λ r, is_Some (req_position r)) (pair_requests mt5 snapshot pair v).
Proof.
  destruct pair as [o rt].
  destruct (snapshot !! o) as [orig_pos|] eqn:Ho;
    destruct (snapshot !! rt) as [rev_pos|] eqn:Hr.
  - rewrite (pair_requests_live _ _ _ _ _ _ Ho Hr), sync_sltp_issued.
    case_match; repeat constructor; by eexists.
  - rewrite pair_requests_rev_gone by done. constructor.
  - rewrite pair_requests_closed, Hr by done. repeat constructor. by eexists.
  - rewrite pair_requests_rev_gone by done. constructor.
Qed.

(** ** The loop body, piece by piece *)

Lemma for_each_inv {A S} (I : S → Prop) (P : TradeRequest F → Prop)
    (body : A → S → M F V S) (l : list A) (s : S) v :
  (∀ a s v, a ∈ l → I s → I (value (body a s v)) ∧ Forall P (issued (body a s v))) →
  I s →
  I (value (for_each body l s v)) ∧ Forall P (issued (for_each body l s v)).
Proof.
  revert s v. induction l as [|a l IH]; intros s v Hbody Hs; cbn [for_each].
  - split; [done | constructor].
  - rewrite ?value_bind, ?issued_bind.
    destruct (Hbody a s v) as [Hs' HP]; [left | done |].
    destruct (IH (value (body a s v)) (venue (body a s v))) as [Hs'' HP']; [|done|].
    + intros a' s' v' Ha'. apply Hbody. by right.
    + split; [done|]. apply Forall_app. by split.
Qed.

Lemma cycle_value st v : value (cycle mt5 st v) = value (cycle_pass2 mt5 st v).
Proof. reflexivity. Qed.

Lemma cycle_issued st v :
  issued (cycle mt5 st v) = issued (cycle_pass1 mt5 st v) ++ issued (cycle_pass2 mt5 st v).
Proof. unfold cycle. msimpl. reflexivity. Qed.

Lemma cycle_venue st v :
  venue (cycle mt5 st v) = sleep mt5 (venue (cycle_pass2 mt5 st v)) POLL_SECONDS.
Proof. reflexivity. Qed.

(** ** The Reversed-Once set only grows *)

Lemma relink_mono st rp : reversed_once st ⊆ reversed_once (relink st rp).
Proof. unfold relink. case_match; simpl; set_solver. Qed.

Lemma rebuild_mapping_mono reverses st :
  reversed_once st ⊆ reversed_once (rebuild_mapping reverses st).
Proof.
  unfold rebuild_mapping. revert st.
  induction reverses as [|rp l IH]; intros st; simpl; [done|].
  etrans; [apply (relink_mono st rp) | apply IH].
Qed.

Lemma open_reverse_mono op st v :
  reversed_once st ⊆ reversed_once (value (open_reverse mt5 op st v)).
Proof.
  rewrite open_reverse_value. repeat case_match; simpl; set_solver.
Qed.

Lemma opening_pass_mono originals st v :
  reversed_once st ⊆ reversed_once (value (opening_pass mt5 originals st v)).
Proof.
  unfold opening_pass.
  apply (value_for_each_inv (λ s, reversed_once st ⊆ reversed_once s)); [|done].
  intros op s w Hs. etrans; [exact Hs | apply open_reverse_mono].
Qed.

Lemma sync_pair_reversed_once snapshot pair st v :
  reversed_once (value (sync_pair mt5 snapshot pair st v)) = reversed_once st.
Proof. rewrite sync_pair_value. by repeat case_match. Qed.

Lemma for_each_sync_pair_reversed_once snapshot pairs st v :
  reversed_once (value (for_each (sync_pair mt5 snapshot) pairs st v)) = reversed_once st.
Proof.
  apply (value_for_each_inv (λ s, reversed_once s = reversed_once st)); [|done].
  intros pair s w Hs. by rewrite sync_pair_reversed_once.
Qed.

Lemma maintenance_pass_reversed_once snapshot st v :
  reversed_once (value (maintenance_pass mt5 snapshot st v)) = reversed_once st.
Proof. apply for_each_sync_pair_reversed_once. Qed.

Lemma cycle_mono st v : reversed_once st ⊆ reversed_once (value (cycle mt5 st v)).
Proof.
  rewrite cycle_value. unfold cycle_pass2. rewrite maintenance_pass_reversed_once.
  etrans; [apply rebuild_mapping_mono | apply opening_pass_mono].
Qed.

Lemma run_mono n st v : reversed_once st ⊆ reversed_once (value (run mt5 n st v)).
Proof.
  revert st v. induction n as [|n IH]; intros st v; cbn [run]; [done|].
  rewrite ?value_bind. etrans; [apply cycle_mono | apply IH].
Qed.

(** ** No second open once reversed *)

Lemma open_reverse_not_reopened (id : Z) op st v :
  id ∈ reversed_once st →
  Forall (λ r, ¬ is_open_for id r) (issued (open_reverse mt5 op st v)).
Proof.
  intros Hid. destruct (needs_open st op) eqn:Hopen.
  - apply needs_open_true in Hopen as [Hnot _].
    eapply Forall_impl; [apply open_reverse_issued|].
    intros r (_ & _ & _ & _ & _ & Hcomment & _) (_ & _ & Hid').
    rewrite Hcomment in Hid'. apply annotation_inj in Hid'. congruence.
  - rewrite open_reverse_skip by done. constructor.
Qed.

Lemma maintenance_pass_no_open (id : Z) snapshot st v :
  Forall (λ r, ¬ is_open_for id r) (issued (maintenance_pass mt5 snapshot st v)).
Proof.
  apply issued_for_each. intros pair s w. rewrite sync_pair_issued.
  eapply Forall_impl; [apply pair_requests_have_position|].
  intros r [t Ht] (_ & Hnone & _). congruence.
Qed.

Lemma cycle_not_reopened (id : Z) st v :
  id ∈ reversed_once st →
  Forall (λ r, ¬ is_open_for id r) (issued (cycle mt5 st v)).
Proof.
  intros Hid. rewrite cycle_issued. apply Forall_app. split.
  - apply (for_each_inv (λ s, id ∈ reversed_once s)).
    + intros op s w _ Hs. split; [|by apply open_reverse_not_reopened].
      by apply (open_reverse_mono op s w).
    + by apply rebuild_mapping_mono.
  - apply maintenance_pass_no_open.
Qed.

Lemma relink_wf rp st : dict_wf (orig_to_rev st) → dict_wf (orig_to_rev (relink st rp)).
Proof. unfold relink. case_match; simpl; [apply dict_wf_set | done]. Qed.

Lemma rebuild_mapping_wf reverses st :
  dict_wf (orig_to_rev st) → dict_wf (orig_to_rev (rebuild_mapping reverses st)).
Proof.
  unfold rebuild_mapping. revert st.
  induction reverses as [|rp l IH]; intros st Hwf; simpl; [done|].
  by apply IH, relink_wf.
Qed.

Lemma run_snoc n st v :
  value (run mt5 (S n) st v)
  = value (cycle mt5 (value (run mt5 n st v)) (venue (run mt5 n st v))).
Proof.
  revert st v. induction n as [|n IH]; intros st v; [reflexivity|].
  change (run mt5 (S (S n)) st v)
    with (bind (cycle mt5 st) (run mt5 (S n)) v).
  rewrite value_bind, IH. reflexivity.
Qed.

Lemma run_not_reopened (id : Z) n st v :
  id ∈ reversed_once st →
  Forall (λ r, ¬ is_open_for id r) (issued (run mt5 n st v)).
Proof.
  revert st v. induction n as [|n IH]; intros st v Hid; cbn [run]; [constructor|].
  rewrite ?issued_bind. apply Forall_app. split.
  - by apply cycle_not_reopened.
  - apply IH. by apply (cycle_mono st v).
Qed.

(** C1.  The Reversed-Once set only grows: after any number of polls it
    contains what it contained before, and each poll's set contains the
    previous poll's.  Once an identifier is in it, no poll ever issues an open
    command for that identifier again, whatever the venue does in between (in
    particular if the reverse closes on its own). *)
Theorem reversed_once_blocks_reopening (n : nat) st v (id : Z) :
  id ∈ reversed_once st →
  reversed_once st ⊆ reversed_once (value (run mt5 n st v))
  ∧ reversed_once (value (run mt5 n st v)) ⊆ reversed_once (value (run mt5 (S n) st v))
  ∧ Forall (λ r, ¬ is_open_for id r) (issued (run mt5 n st v)).
Proof.
  intros Hid. split; [apply run_mono|]. split.
  - rewrite run_snoc. apply cycle_mono.
  - by apply run_not_reopened.
Qed.

(** ** Pass 2: what it removes and what it closes *)

Lemma pos_by_ticket_lookup (live : list (TradePosition F)) (t : Z) p :
  pos_by_ticket live !! t = Some p → ticket p = t ∧ p ∈ live.
Proof.
  unfold pos_by_ticket.
  assert (Hgen : ∀ (m : gmap Z (TradePosition F)),
             (∀ t p, m !! t = Some p → ticket p = t ∧ p ∈ live) →
             ∀ l, (∀ p, p ∈ l → p ∈ live) →
             ∀ t p, fold_left (λ m p, <[ticket p := p]> m) l m !! t = Some p →
                    ticket p = t ∧ p ∈ live).
  { intros m Hm l. revert m Hm. induction l as [|q l IH]; intros m Hm Hl t' p'; simpl.
    - apply Hm.
    - apply IH.
      + intros t'' p''. rewrite lookup_insert. case_decide as Ht.
        * intros [= <-]. split; [done|]. apply Hl. left.
        * apply Hm.
      + intros p'' Hp''. apply Hl. by right. }
  apply (Hgen ∅); [by intros ? ?; rewrite lookup_empty | done].
Qed.

Lemma sync_pair_value_live snapshot pair st v :
  value (sync_pair mt5 snapshot pair st v)
  = if both_live snapshot pair then st else unlink pair.1 st.
Proof. rewrite sync_pair_value. unfold both_live. by repeat case_match. Qed.

(** Pass 2 only removes entries. *)
Lemma for_each_sync_pair_get snapshot pairs st v (k x : Z) :
  dict_get k (orig_to_rev (value (for_each (sync_pair mt5 snapshot) pairs st v))) = Some x →
  dict_get k (orig_to_rev st) = Some x.
Proof.
  apply (value_for_each_inv
           (λ s, dict_get k (orig_to_rev s) = Some x → dict_get k (orig_to_rev st) = Some x));
    [|done].
  intros pair s w Hs. rewrite sync_pair_value_live.
  destruct (both_live snapshot pair); [done|].
  simpl. rewrite dict_get_pop. case_decide; [done | exact Hs].
Qed.

(** An entry whose pair is visited and not fully live is removed. *)
Lemma for_each_sync_pair_removed snapshot pairs st v (k x : Z) :
  (k, x) ∈ pairs → both_live snapshot (k, x) = false →
  dict_get k (orig_to_rev (value (for_each (sync_pair mt5 snapshot) pairs st v))) = None.
Proof.
  revert st v. induction pairs as [|pair pairs IH]; intros st v Hin Hlive.
  - by apply elem_of_nil in Hin.
  - cbn [for_each]. rewrite ?value_bind.
    apply elem_of_cons in Hin as [<-|Hin]; [|by apply IH].
    destruct (dict_get k (orig_to_rev (value (for_each _ _ _ _)))) as [y|] eqn:Hy; [|done].
    apply for_each_sync_pair_get in Hy.
    rewrite sync_pair_value_live, Hlive in Hy. simpl in Hy.
    rewrite dict_get_pop in Hy. by rewrite decide_True in Hy.
Qed.

(** An entry all of whose visited pairs are live is kept. *)
Lemma for_each_sync_pair_kept snapshot pairs st v (k : Z) :
  (∀ x, (k, x) ∈ pairs → both_live snapshot (k, x) = true) →
  dict_get k (orig_to_rev (value (for_each (sync_pair mt5 snapshot) pairs st v)))
  = dict_get k (orig_to_rev st).
Proof.
  revert st v. induction pairs as [|[k' x'] pairs IH]; intros st v Hlive; [done|].
  cbn [for_each]. rewrite ?value_bind, IH.
  - rewrite sync_pair_value_live.
    destruct (both_live snapshot (k', x')) eqn:Hl; [done|].
    simpl. rewrite dict_get_pop. case_decide as Hk; [|done].
    subst k'. rewrite Hlive in Hl; [done | left].
  - intros x Hx. apply Hlive. by right.
Qed.

Lemma count_requests_app (f : TradeRequest F → bool) (l1 l2 : list (TradeRequest F)) :
  count_requests f (l1 ++ l2) = (count_requests f l1 + count_requests f l2)%nat.
Proof. unfold count_requests. by rewrite List.filter_app, length_app. Qed.

(** The close commands pass 2 issues upon [rt] for one pair. *)
Lemma pair_close_count (live : list (TradePosition F)) (o' r' rt : Z) v :
  count_requests (is_close_of rt) (pair_requests mt5 (pos_by_ticket live) (o', r') v)
  = if bool_decide (r' = rt)
       && bool_decide (pos_by_ticket live !! o' = None)
       && bool_decide (is_Some (pos_by_ticket live !! r'))
    then 1%nat else 0%nat.
Proof.
  destruct (pos_by_ticket live !! o') as [orig_pos|] eqn:Ho;
    destruct (pos_by_ticket live !! r') as [rev_pos|] eqn:Hr.
  - rewrite (pair_requests_live _ _ _ _ _ _ Ho Hr), sync_sltp_issued.
    rewrite (bool_decide_eq_false_2 (Some orig_pos = None)), andb_false_r by done.
    simpl. by case_match.
  - rewrite pair_requests_rev_gone by done.
    rewrite (bool_decide_eq_false_2 (Some orig_pos = None)), andb_false_r by done.
    done.
  - rewrite pair_requests_closed, Hr by done.
    apply pos_by_ticket_lookup in Hr as [Ht _].
    rewrite (bool_decide_eq_true_2 (None = None)), (bool_decide_eq_true_2 (is_Some _)),
      !andb_true_r by eauto.
    unfold count_requests, is_close_of. simpl. rewrite Ht.
    destruct (decide (r' = rt)) as [->|Hrt].
    + by rewrite !bool_decide_eq_true_2 by done.
    + rewrite (bool_decide_eq_false_2 (r' = rt)) by done.
      by rewrite bool_decide_eq_false_2 by congruence.
  - rewrite pair_requests_rev_gone by done.
    rewrite (bool_decide_eq_false_2 (is_Some None)), andb_false_r; [done|].
    by intros [? ?].
Qed.

Lemma for_each_close_count_0 (live : list (TradePosition F)) pairs st v (rt : Z) :
  (∀ o', (o', rt) ∉ pairs) →
  count_requests (is_close_of rt)
    (issued (for_each (sync_pair mt5 (pos_by_ticket live)) pairs st v)) = 0%nat.
Proof.
  revert st v. induction pairs as [|[o' r'] pairs IH]; intros st v Hno; [done|].
  cbn [for_each]. rewrite ?issued_bind, count_requests_app, sync_pair_issued.
  rewrite pair_close_count, IH.
  - rewrite bool_decide_eq_false_2; [done|].
    intros ->. apply (Hno o'). left.
  - intros o'' Hin. apply (Hno o''). by right.
Qed.

Lemma for_each_close_count (live : list (TradePosition F)) pairs st v (o rt : Z) :
  NoDup pairs → (o, rt) ∈ pairs → (∀ o', (o', rt) ∈ pairs → o' = o) →
  pos_by_ticket live !! o = None →
  count_requests (is_close_of rt)
    (issued (for_each (sync_pair mt5 (pos_by_ticket live)) pairs st v))
  = match pos_by_ticket live !! rt with Some _ => 1%nat | None => 0%nat end.
Proof.
  revert st v. induction pairs as [|[o' r'] pairs IH]; intros st v Hnd Hin Huniq Ho.
  - by apply elem_of_nil in Hin.
  - apply NoDup_cons in Hnd as [Hfresh Hnd].
    cbn [for_each]. rewrite ?issued_bind, count_requests_app, sync_pair_issued.
    rewrite pair_close_count.
    apply elem_of_cons in Hin as [[= <- <-]|Hin].
    + rewrite for_each_close_count_0.
      * rewrite (bool_decide_eq_true_2 (rt = rt)), (bool_decide_eq_true_2 (_ = None)) by done.
        simpl. destruct (pos_by_ticket live !! rt).
        -- by rewrite bool_decide_eq_true_2 by eauto.
        -- rewrite bool_decide_eq_false_2; [done | by intros [? ?]].
      * intros o'' Hin. assert (o'' = o) as -> by (apply Huniq; by right). done.
    + rewrite IH; [| done | done | | done].
      * rewrite bool_decide_eq_false_2; [by simpl|].
        intros ->. assert (o' = o) as -> by (apply Huniq; left). done.
      * intros o'' Hin'. apply Huniq. by right.
Qed.

Lemma dict_wf_NoDup (d : dict) : dict_wf d → NoDup (dict_items d).
Proof. unfold dict_wf, dict_items. apply NoDup_fmap_1. Qed.

(** Pass 2, for a tracked pair [(o, rt)] whose original is not in the live
    snapshot. *)
Lemma maintenance_pass_cascade (live : list (TradePosition F)) st v (o rt : Z) :
  (o, rt) ∈ dict_items (orig_to_rev st) →
  pos_by_ticket live !! o = None →
  let pass := maintenance_pass mt5 (pos_by_ticket live) st v in
  dict_get o (orig_to_rev (value pass)) = None
  ∧ (∀ w, count_requests (is_close_of rt) (pair_requests mt5 (pos_by_ticket live) (o, rt) w)
          = match pos_by_ticket live !! rt with Some _ => 1%nat | None => 0%nat end)
  ∧ (dict_wf (orig_to_rev st) →
     (∀ o', (o', rt) ∈ dict_items (orig_to_rev st) → o' = o) →
     count_requests (is_close_of rt) (issued pass)
     = match pos_by_ticket live !! rt with Some _ => 1%nat | None => 0%nat end).
Proof.
  intros Hin Ho pass. split; [|split].
  - apply (for_each_sync_pair_removed _ _ _ _ o rt); [done|].
    unfold both_live. simpl. by rewrite Ho.
  - intros w. rewrite pair_close_count, Ho.
    rewrite (bool_decide_eq_true_2 (rt = rt)), (bool_decide_eq_true_2 (None = None)) by done.
    simpl. destruct (pos_by_ticket live !! rt).
    + by rewrite bool_decide_eq_true_2 by eauto.
    + rewrite bool_decide_eq_false_2; [done | by intros [? ?]].
  - intros Hwf Huniq. apply (for_each_close_count live _ st v o rt); try done.
    by apply dict_wf_NoDup.
Qed.

Lemma count_requests_none (f : TradeRequest F → bool) (l : list (TradeRequest F)) :
  Forall (λ r, f r = false) l → count_requests f l = 0%nat.
Proof.
  unfold count_requests. induction 1 as [|r l Hr _ IH]; simpl; [done|]. by rewrite Hr.
Qed.

(** Pass 1 issues no close command. *)
Lemma opening_pass_no_close originals st v (rt : Z) :
  count_requests (is_close_of rt) (issued (opening_pass mt5 originals st v)) = 0%nat.
Proof.
  apply count_requests_none. apply issued_for_each. intros op s w.
  eapply Forall_impl; [apply open_reverse_issued|].
  intros r (_ & Hpos & _). unfold is_close_of. rewrite Hpos.
  by rewrite (bool_decide_eq_false_2 (None = Some rt)), andb_false_r.
Qed.

Lemma opening_pass_wf originals st v :
  dict_wf (orig_to_rev st) → dict_wf (orig_to_rev (value (opening_pass mt5 originals st v))).
Proof.
  apply (value_for_each_inv (λ s, dict_wf (orig_to_rev s))).
  intros op s w Hs. rewrite open_reverse_value.
  repeat case_match; simpl; auto using dict_wf_set.
Qed.

(** C3.  In a poll, take a pair [(o, rt)] that the linkage table holds when
    pass 2 starts and whose original [o] is not in the live snapshot.  When
    the poll ends the pair is gone from the table, whatever the venue
    answered to the close.  Handling the pair issues one close command upon
    the reverse when the reverse is live, and nothing when it is not.  And,
    [rt] being the reverse of [o] only, the whole poll issues exactly one
    close command upon [rt] when it is live (none when it is not). *)
Theorem cascade_close st v (o rt : Z) :
  let tracked := orig_to_rev (value (cycle_pass1 mt5 st v)) in
  let live := cycle_live mt5 st v in
  (o, rt) ∈ dict_items tracked →
  live !! o = None →
  dict_get o (orig_to_rev (value (cycle mt5 st v))) = None
  ∧ (∀ w, count_requests (is_close_of rt) (pair_requests mt5 live (o, rt) w)
          = match live !! rt with Some _ => 1%nat | None => 0%nat end)
  ∧ (dict_wf (orig_to_rev st) →
     (∀ o', (o', rt) ∈ dict_items tracked → o' = o) →
     count_requests (is_close_of rt) (issued (cycle mt5 st v))
     = match live !! rt with Some _ => 1%nat | None => 0%nat end).
Proof.
  intros tracked live Hin Ho.
  destruct (maintenance_pass_cascade _ _ (venue (cycle_pass1 mt5 st v)) o rt Hin Ho)
    as (Hdrop & Hpair & Hcount).
  split; [by rewrite cycle_value|]. split; [exact Hpair|].
  intros Hwf Huniq. rewrite cycle_issued, count_requests_app.
  unfold cycle_pass1 at 1. rewrite opening_pass_no_close. simpl.
  apply Hcount; [|done].
  by apply opening_pass_wf, rebuild_mapping_wf.
Qed.

(** ** Pass 1: a failed open changes nothing *)






(** ** The swap rule and the comparison of levels *)

Lemma is_set_false (x : F) :
  is_set x = false ↔ (f_eqb x f_zero = true ∨ f_ltb f_zero x = false).
Proof.
  unfold is_set, truthy. destruct (f_eqb x f_zero), (f_ltb f_zero x); simpl; naive_solver.
Qed.

Lemma level_or_none_None (x : F) : level_or_none x = None ↔ is_set x = false.
Proof. unfold level_or_none. by destruct (is_set x). Qed.

Lemma level_or_none_Some (x y : F) : level_or_none x = Some y → y = x ∧ is_set x = true.
Proof. unfold level_or_none. destruct (is_set x); [by intros [= <-] | done]. Qed.

Lemma level_differs_false symbol desired cur v :
  value (level_differs mt5 symbol desired cur v) = false ↔ levels_agree mt5 symbol desired cur v.
Proof.
  unfold level_differs, levels_agree. destruct desired as [d|], cur as [c|]; msimpl; try done.
  by rewrite negb_false_iff.
Qed.

(** C2, as the code has it.  The desired stop-loss of the reverse is the
    original's take-profit and its desired take-profit is the original's
    stop-loss; a desired level is unset exactly when the original's field is
    zero or is not greater than zero (the guard [x and x > 0]).  For a live
    pair the maintenance pass issues, when a live level disagrees with the
    desired one, one modify command upon the reverse that carries both
    desired levels (rounded, [0.0] for unset), and issues nothing only when
    both live levels already agree with the desired ones. *)
Theorem swap_rule orig_pos rev_pos v :
  let desired := desired_sltp_for_reverse orig_pos in
  desired = (if is_set (tp orig_pos) then Some (tp orig_pos) else None,
             if is_set (sl orig_pos) then Some (sl orig_pos) else None)
  ∧ (desired.1 = None ↔ (f_eqb (tp orig_pos) f_zero = true ∨ f_ltb f_zero (tp orig_pos) = false))
  ∧ (desired.2 = None ↔ (f_eqb (sl orig_pos) f_zero = true ∨ f_ltb f_zero (sl orig_pos) = false))
  ∧ (issued (sync_sltp mt5 orig_pos rev_pos v) = []
     ∨ issued (sync_sltp mt5 orig_pos rev_pos v)
       = [modify_request (ticket rev_pos) (symbol rev_pos)
            (value (normalize_or_zero mt5 (symbol rev_pos) desired.1 v))
            (value (normalize_or_zero mt5 (symbol rev_pos) desired.2 v))])
  ∧ (issued (sync_sltp mt5 orig_pos rev_pos v) = [] ↔
     (levels_agree mt5 (symbol rev_pos) desired.1 (level_or_none (sl rev_pos)) v
      ∧ levels_agree mt5 (symbol rev_pos) desired.2 (level_or_none (tp rev_pos)) v)).
Proof.
  intros desired. split; [reflexivity|].
  split; [by rewrite <- is_set_false, <- level_or_none_None|].
  split; [by rewrite <- is_set_false, <- level_or_none_None|].
  rewrite sync_sltp_issued. fold desired. split.
  - destruct (need_modify mt5 orig_pos rev_pos v); [by right | by left].
  - rewrite <- !level_differs_false. unfold need_modify. fold desired.
    destruct (value (level_differs mt5 (symbol rev_pos) desired.1 _ v)),
      (value (level_differs mt5 (symbol rev_pos) desired.2 _ v)); simpl; naive_solver.
Qed.

(** C5.  On an instrument whose precision the venue reports, two levels that
    are both set and equal after rounding to that precision never make the
    maintenance pass modify, whatever their raw values: such a stop-loss pair
    (or take-profit pair) contributes nothing to [need_modify], which is then
    decided by the other pair alone, and when both pairs are such the pass
    issues no command. *)
Theorem rounding_stability orig_pos rev_pos info v :
  symbol_info mt5 v (symbol rev_pos) = Some info →
  let same (a b : F) :=
    is_set a && is_set b && f_eqb (f_round a (digits info)) (f_round b (digits info)) in
  (same (tp orig_pos) (sl rev_pos) = true →
     need_modify mt5 orig_pos rev_pos v
     = value (level_differs mt5 (symbol rev_pos) (desired_sltp_for_reverse orig_pos).2
                (level_or_none (tp rev_pos)) v))
  ∧ (same (sl orig_pos) (tp rev_pos) = true →
     need_modify mt5 orig_pos rev_pos v
     = value (level_differs mt5 (symbol rev_pos) (desired_sltp_for_reverse orig_pos).1
                (level_or_none (sl rev_pos)) v))
  ∧ (same (tp orig_pos) (sl rev_pos) = true → same (sl orig_pos) (tp rev_pos) = true →
     issued (sync_sltp mt5 orig_pos rev_pos v) = []).
Proof.
  intros Hinfo same.
  assert (Hpair : ∀ a b, same a b = true →
            value (level_differs mt5 (symbol rev_pos) (level_or_none a) (level_or_none b) v)
            = false).
  { intros a b [[Ha Hb]%andb_true_iff Heq]%andb_true_iff.
    unfold level_or_none. rewrite Ha, Hb. unfold level_differs. msimpl.
    by rewrite !value_normalize_price, Hinfo, Heq. }
  split; [|split].
  - intros Hsl. unfold need_modify. cbn [desired_sltp_for_reverse fst snd].
    by rewrite (Hpair _ _ Hsl).
  - intros Htp. unfold need_modify. cbn [desired_sltp_for_reverse fst snd].
    by rewrite (Hpair _ _ Htp), orb_false_r.
  - intros Hsl Htp. rewrite sync_sltp_issued. unfold need_modify.
    cbn [desired_sltp_for_reverse fst snd].
    by rewrite (Hpair _ _ Hsl), (Hpair _ _ Htp).
Qed.

(** ** The reverse order *)

Lemma send_market_order_at_most_one symbol order_type volume sl tp comment magic v :
  (length (issued (send_market_order mt5 symbol order_type volume sl tp comment magic v)) ≤ 1)%nat.
Proof.
  unfold send_market_order. msimpl.
  destruct (value (ensure_symbol mt5 symbol v)); cbn [negb]; [|by msimpl; simpl; lia].
  msimpl.
  match goal with |- context [value (price_from_tick mt5 ?s ?t ?w)] =>
    destruct (value (price_from_tick mt5 s t w)) as [price|]; [|by msimpl; simpl; lia]
  end.
  msimpl. mcases; simpl; lia.
Qed.

Lemma open_and_locate_issued_eq op v :
  issued (open_and_locate mt5 op v)
  = if value (ensure_symbol mt5 (symbol op) v)
    then issued (send_market_order mt5 (symbol op) (reverse_type (type op))
                   (f_round (f_mul (volume op) f_two) 2)
                   (desired_sltp_for_reverse op).1 (desired_sltp_for_reverse op).2
                   (COMMENT_PREFIX +:+ str_of_int (ticket op)) MAGIC
                   (venue (ensure_symbol mt5 (symbol op) v)))
    else [].
Proof.
  unfold open_and_locate. msimpl.
  destruct (value (ensure_symbol mt5 (symbol op) v)); cbn [negb]; [|by msimpl].
  msimpl. by mcases.
Qed.

Lemma open_reverse_issued_eq op st v :
  issued (open_reverse mt5 op st v)
  = if needs_open st op then issued (open_and_locate mt5 op v) else [].
Proof.
  unfold open_reverse. destruct (needs_open st op); [|by msimpl].
  msimpl. by mcases.
Qed.

Lemma open_reverse_at_most_one op st v :
  (length (issued (open_reverse mt5 op st v)) ≤ 1)%nat.
Proof.
  rewrite open_reverse_issued_eq, open_and_locate_issued_eq.
  repeat case_match; simpl; try lia. apply send_market_order_at_most_one.
Qed.

(** C6, as the code has it.  Every open command pass 1 submits for an
    original carries twice the original's volume rounded to two decimal
    places (a fixed precision, whatever the instrument), the side opposite to
    the original's (sell for a long original, buy for a short one) and the
    original's annotation; at most one such command is submitted per
    original and poll. *)
Theorem reverse_order_volume_and_side op st v :
  Forall (λ r, req_volume r = Some (f_round (f_mul (volume op) f_two) 2)
               ∧ req_type r = Some (reverse_type (type op))
               ∧ is_open_for (ticket op) r)
    (issued (open_reverse mt5 op st v))
  ∧ (length (issued (open_reverse mt5 op st v)) ≤ 1)%nat
  ∧ reverse_type POSITION_TYPE_BUY = ORDER_TYPE_SELL
  ∧ reverse_type POSITION_TYPE_SELL = ORDER_TYPE_BUY.
Proof.
  split; [|split; [apply open_reverse_at_most_one | done]].
  eapply Forall_impl; [apply open_reverse_issued|].
  intros r (Hact & Hpos & _ & Hty & Hvol & Hcomment & _). by repeat split.
Qed.

(** ** The classifier *)

Lemma relink_get rp st (o : Z) :
  dict_get o (orig_to_rev (relink st rp))
  = if bool_decide (parse_original_ticket_from_comment (comment rp) = Some o)
    then Some (ticket rp) else dict_get o (orig_to_rev st).
Proof.
  unfold relink. destruct (parse_original_ticket_from_comment (comment rp)) as [o'|].
  - cbn [link orig_to_rev]. rewrite dict_get_set.
    case_decide as Ho; case_bool_decide as Ho'; congruence.
  - by case_bool_decide.
Qed.

Lemma rebuild_mapping_app reverses1 reverses2 st :
  rebuild_mapping (reverses1 ++ reverses2) st
  = rebuild_mapping reverses2 (rebuild_mapping reverses1 st).
Proof. unfold rebuild_mapping. apply fold_left_app. Qed.

Lemma rebuild_mapping_unclaimed reverses st (o : Z) :
  (∀ rp, rp ∈ reverses → parse_original_ticket_from_comment (comment rp) ≠ Some o) →
  dict_get o (orig_to_rev (rebuild_mapping reverses st)) = dict_get o (orig_to_rev st).
Proof.
  unfold rebuild_mapping. revert st.
  induction reverses as [|rp l IH]; intros st Hno; simpl; [done|].
  rewrite IH.
  - rewrite relink_get, bool_decide_eq_false_2; [done|]. apply Hno. left.
  - intros rp' Hrp'. apply Hno. by right.
Qed.

(** C7, as the code has it.  The classifier has no test for reverses that
    claim the same original: each parsed reverse overwrites the entry of the
    original it names, so after the rebuild the original is linked to the
    last reverse in snapshot order that claims it (whatever claimed it
    before, and whatever the table held), the identifier is in the
    Reversed-Once set, and the table still holds one entry per original. *)
Theorem last_reverse_wins (earlier later : list (TradePosition F)) rp st (o : Z) :
  parse_original_ticket_from_comment (comment rp) = Some o →
  (∀ rp', rp' ∈ later → parse_original_ticket_from_comment (comment rp') ≠ Some o) →
  let st' := rebuild_mapping (earlier ++ rp :: later) st in
  dict_get o (orig_to_rev st') = Some (ticket rp)
  ∧ o ∈ reversed_once st'
  ∧ (dict_wf (orig_to_rev st) → dict_wf (orig_to_rev st')).
Proof.
  intros Hrp Hlater st'. subst st'.
  rewrite rebuild_mapping_app.
  change (rp :: later) with ([rp] ++ later). rewrite rebuild_mapping_app.
  split; [|split].
  - rewrite rebuild_mapping_unclaimed by done.
    unfold rebuild_mapping at 1. simpl.
    by rewrite relink_get, bool_decide_eq_true_2.
  - apply rebuild_mapping_mono. unfold rebuild_mapping at 1. simpl.
    unfold relink. rewrite Hrp. simpl. set_solver.
  - intros Hwf. by repeat apply rebuild_mapping_wf.
Qed.


(** ** Invariants of the engine state *)

Lemma initial_engine_ok : engine_ok initial_engine.
Proof. split; [apply dict_wf_nil | by intros k ?%elem_of_nil]. Qed.

Lemma link_ok (o rt : Z) st : engine_ok st → engine_ok (link o rt st).
Proof.
  intros [Hwf Hin]. split; simpl; [by apply dict_wf_set|].
  intros k [->|Hk]%dict_keys_set; [set_solver|]. apply Hin in Hk. set_solver.
Qed.

Lemma unlink_ok (o : Z) st : engine_ok st → engine_ok (unlink o st).
Proof.
  intros [Hwf Hin]. split; simpl; [by apply dict_wf_pop|].
  intros k [_ Hk]%dict_keys_pop. by apply Hin.
Qed.

Lemma relink_ok st rp : engine_ok st → engine_ok (relink st rp).
Proof. unfold relink. case_match; [apply link_ok | done]. Qed.

Lemma rebuild_mapping_ok reverses st : engine_ok st → engine_ok (rebuild_mapping reverses st).
Proof.
  unfold rebuild_mapping. revert st.
  induction reverses as [|rp l IH]; intros st Hok; simpl; [done|].
  by apply IH, relink_ok.
Qed.

Lemma open_reverse_ok op st v : engine_ok st → engine_ok (value (open_reverse mt5 op st v)).
Proof. rewrite open_reverse_value. repeat case_match; auto using link_ok. Qed.

Lemma opening_pass_ok originals st v :
  engine_ok st → engine_ok (value (opening_pass mt5 originals st v)).
Proof.
  apply (value_for_each_inv engine_ok). intros op s w. apply open_reverse_ok.
Qed.

Lemma sync_pair_ok snapshot pair st v :
  engine_ok st → engine_ok (value (sync_pair mt5 snapshot pair st v)).
Proof. rewrite sync_pair_value_live. case_match; auto using unlink_ok. Qed.

Lemma maintenance_pass_ok snapshot st v :
  engine_ok st → engine_ok (value (maintenance_pass mt5 snapshot st v)).
Proof.
  apply (value_for_each_inv engine_ok). intros pair s w. apply sync_pair_ok.
Qed.

Lemma cycle_ok st v : engine_ok st → engine_ok (value (cycle mt5 st v)).
Proof.
  intros Hok. rewrite cycle_value.
  by apply maintenance_pass_ok, opening_pass_ok, rebuild_mapping_ok.
Qed.

Lemma run_ok n st v : engine_ok st → engine_ok (value (run mt5 n st v)).
Proof.
  revert st v. induction n as [|n IH]; intros st v Hok; cbn [run]; [done|].
  rewrite ?value_bind. by apply IH, cycle_ok.
Qed.

(** Every state [main] reaches satisfies the invariant. *)
Lemma main_ok n v : engine_ok (value (main mt5 n v)).
Proof. apply run_ok, initial_engine_ok. Qed.

Lemma rebuild_mapping_get reverses st (k : Z) :
  dict_get k (orig_to_rev (rebuild_mapping reverses st))
  = last_claim reverses k (dict_get k (orig_to_rev st)).
Proof.
  unfold rebuild_mapping. revert st.
  induction reverses as [|rp l IH]; intros st; simpl; [done|].
  by rewrite IH, relink_get.
Qed.

Lemma last_claim_fallback reverses (k : Z) (fallback : option Z) :
  last_claim reverses k fallback
  = match last_claim reverses k None with
    | Some t => Some t
    | None => fallback
    end.
Proof.
  revert fallback. induction reverses as [|rp l IH]; intros fallback; simpl; [done|].
  case_bool_decide; [|apply IH].
  rewrite (IH (Some _)). by destruct (last_claim l k None).
Qed.

(** ** Two polls on the same snapshot *)

Lemma venue_symbol_selectM symbol v :
  venue (symbol_selectM mt5 symbol v) = (symbol_select mt5 v symbol).2.
Proof. reflexivity. Qed.

Lemma venue_order_sendM r v : venue (order_sendM mt5 r v) = (order_send mt5 v r).2.
Proof. reflexivity. Qed.

Lemma venue_sleepM seconds v : venue (sleepM mt5 seconds v) = sleep mt5 v seconds.
Proof. reflexivity. Qed.

Section Frozen.

Hypothesis Hfrozen : venue_never_changes mt5.

Lemma fz_symbol_selectM symbol v : venue (symbol_selectM mt5 symbol v) = v.
Proof. rewrite venue_symbol_selectM. apply Hfrozen. Qed.

Lemma fz_order_sendM r v : venue (order_sendM mt5 r v) = v.
Proof. rewrite venue_order_sendM. apply Hfrozen. Qed.

Lemma fz_sleepM seconds v : venue (sleepM mt5 seconds v) = v.
Proof. rewrite venue_sleepM. apply Hfrozen. Qed.

Hint Rewrite fz_symbol_selectM fz_order_sendM fz_sleepM : run.

Lemma fz_ensure_symbol symbol v : venue (ensure_symbol mt5 symbol v) = v.
Proof. unfold ensure_symbol. msimpl. by mcases. Qed.

Hint Rewrite fz_ensure_symbol : run.

Lemma fz_send_market_order symbol order_type volume sl tp comment magic v :
  venue (send_market_order mt5 symbol order_type volume sl tp comment magic v) = v.
Proof. unfold send_market_order. msimpl. by mcases. Qed.

Hint Rewrite fz_send_market_order : run.

Lemma fz_open_and_locate op v : venue (open_and_locate mt5 op v) = v.
Proof. unfold open_and_locate. msimpl. by mcases. Qed.

Hint Rewrite fz_open_and_locate : run.

Lemma fz_open_reverse op st v : venue (open_reverse mt5 op st v) = v.
Proof. unfold open_reverse. by mcases. Qed.

Lemma fz_for_each {A S} (body : A → S → M F V S) (l : list A) (s : S) v :
  (∀ a s v, venue (body a s v) = v) → venue (for_each body l s v) = v.
Proof.
  intros Hbody. revert s. induction l as [|a l IH]; intros s; cbn [for_each]; [done|].
  by rewrite ?venue_bind, Hbody, IH.
Qed.

Lemma fz_opening_pass originals st v : venue (opening_pass mt5 originals st v) = v.
Proof. apply fz_for_each. intros. apply fz_open_reverse. Qed.

Lemma fz_modify_position_sltp t symbol sl tp v :
  venue (modify_position_sltp mt5 t symbol sl tp v) = v.
Proof. unfold modify_position_sltp. by msimpl. Qed.

Lemma fz_close_position t symbol volume ty v :
  venue (close_position mt5 t symbol volume ty v) = v.
Proof. unfold close_position. by msimpl. Qed.

Hint Rewrite fz_modify_position_sltp fz_close_position : run.

Lemma fz_sync_sltp orig_pos rev_pos v : venue (sync_sltp mt5 orig_pos rev_pos v) = v.
Proof. unfold sync_sltp. msimpl. by mcases. Qed.

Hint Rewrite fz_sync_sltp : run.

Lemma fz_sync_pair snapshot pair st v : venue (sync_pair mt5 snapshot pair st v) = v.
Proof. unfold sync_pair. by mcases. Qed.

Lemma fz_maintenance_pass snapshot st v : venue (maintenance_pass mt5 snapshot st v) = v.
Proof. apply fz_for_each. intros. apply fz_sync_pair. Qed.

Lemma fz_cycle st v : venue (cycle mt5 st v) = v.
Proof.
  rewrite cycle_venue. destruct Hfrozen as (_ & _ & ->).
  unfold cycle_pass2. rewrite fz_maintenance_pass. unfold cycle_pass1.
  apply fz_opening_pass.
Qed.

(** What pass 2 issues, pair by pair. *)
Lemma fz_maintenance_issued snapshot pairs st v r :
  r ∈ issued (for_each (sync_pair mt5 snapshot) pairs st v)
  ↔ ∃ pair, pair ∈ pairs ∧ r ∈ pair_requests mt5 snapshot pair v.
Proof.
  revert st. induction pairs as [|pair pairs IH]; intros st; cbn [for_each].
  - rewrite issued_ret. split; [by intros ?%elem_of_nil|].
    by intros (? & ?%elem_of_nil & _).
  - rewrite issued_bind, elem_of_app, sync_pair_issued, fz_sync_pair, IH. split.
    + intros [Hr|(pair' & Hin & Hr)]; [exists pair | exists pair']; split; try done;
        [left | by right].
    + intros (pair' & [->|Hin]%elem_of_cons & Hr); [by left | right; eauto].
Qed.

(** Pass 1 of the second poll, from an engine state [s2] whose Reversed-Once
    set already holds whatever the first poll's pass 1 (from [s1]) ends with:
    it links nothing, and issues only open commands the first one issued. *)
Lemma fz_opening_pass_again originals s1 s2 v :
  engine_ok s1 →
  reversed_once (value (opening_pass mt5 originals s1 v)) ⊆ reversed_once s2 →
  value (opening_pass mt5 originals s2 v) = s2
  ∧ ∀ r, r ∈ issued (opening_pass mt5 originals s2 v) →
         r ∈ issued (opening_pass mt5 originals s1 v).
Proof.
  unfold opening_pass. revert s1.
  induction originals as [|op l IH]; intros s1 Hok Hsub; cbn [for_each].
  - split; [done|]. rewrite issued_ret. by intros r ?%elem_of_nil.
  - cbn [for_each] in Hsub. rewrite value_bind, fz_open_reverse in Hsub.
    rewrite !value_bind, !issued_bind, !fz_open_reverse.
    destruct (IH (value (open_reverse mt5 op s1 v))) as [IHv IHi];
      [by apply open_reverse_ok | done |].
    assert (Hstep : value (open_reverse mt5 op s2 v) = s2
                    ∧ ∀ r, r ∈ issued (open_reverse mt5 op s2 v) →
                           r ∈ issued (open_reverse mt5 op s1 v)).
    { rewrite open_reverse_value, !open_reverse_issued_eq.
      destruct (needs_open s2 op) eqn:Hopen2; [|split; [done | by intros r ?%elem_of_nil]].
      apply needs_open_true in Hopen2 as [Hro2 _].
      assert (Hro_end : ticket op ∉ reversed_once (value (for_each (open_reverse mt5) l
                          (value (open_reverse mt5 op s1 v)) v))) by set_solver.
      assert (Hro1' : ticket op ∉ reversed_once (value (open_reverse mt5 op s1 v))).
      { intros Hin. apply Hro_end. by apply (opening_pass_mono l _ v). }
      assert (Hro1 : ticket op ∉ reversed_once s1).
      { intros Hin. apply Hro1'. by apply (open_reverse_mono op s1 v). }
      assert (Hopen1 : needs_open s1 op = true).
      { apply needs_open_true. split; [done|].
        destruct (dict_get (ticket op) (orig_to_rev s1)) eqn:Hget; [|done].
        exfalso. apply Hro1. apply Hok. apply dict_get_keys. by rewrite Hget. }
      rewrite Hopen1. split; [|done].
      rewrite open_reverse_value, Hopen1 in Hro1'.
      destruct (value (open_and_locate mt5 op v)); [|done].
      exfalso. apply Hro1'. simpl. set_solver. }
    destruct Hstep as [Hv Hi]. rewrite Hv. split; [done|].
    intros r [Hr|Hr]%elem_of_app; apply elem_of_app; [left; auto | right; auto].
Qed.

(** C4, as the code has it.  Take two polls in a row on a venue that does
    not change, from an engine state in which every linked identifier is in
    the Reversed-Once set (as in every state the loop reaches).  The second
    poll issues no new command: each command it issues was already issued,
    identically, by the first poll (a rejected or unreflected command is
    retried); in particular it issues none when the first poll issued none.
    The engine state it leaves still satisfies the invariant. *)
Theorem second_poll_only_retries st v :
  engine_ok st →
  let first := cycle mt5 st v in
  let second := cycle mt5 (value first) (venue first) in
  (∀ r, r ∈ issued second → r ∈ issued first)
  ∧ (issued first = [] → issued second = [])
  ∧ engine_ok (value second).
Proof.
  intros Hok first second.
  assert (Hsub : ∀ r, r ∈ issued second → r ∈ issued first).
  { subst first second. rewrite fz_cycle.
    set (st' := value (cycle mt5 st v)).
    intros r. rewrite !cycle_issued, !elem_of_app.
    assert (Hok1 : engine_ok (after_rebuild mt5 st v)) by by apply rebuild_mapping_ok.
    assert (Hro : reversed_once (value (cycle_pass1 mt5 st v)) ⊆ reversed_once (after_rebuild mt5 st' v)).
    { etrans; [|apply rebuild_mapping_mono]. subst st'.
      rewrite cycle_value. unfold cycle_pass2.
      by rewrite maintenance_pass_reversed_once. }
    destruct (fz_opening_pass_again (originals_of (positions_get mt5 v))
                (after_rebuild mt5 st v) (after_rebuild mt5 st' v) v Hok1 Hro) as [Hsame Hopen].
    intros [Hr|Hr]; [left; by apply Hopen|right].
    revert Hr. unfold cycle_pass2, cycle_live, maintenance_pass.
    unfold cycle_pass1 at 1 2 3. rewrite Hsame, !fz_opening_pass.
    unfold cycle_pass1. rewrite !fz_opening_pass.
    rewrite !fz_maintenance_issued.
    intros ([k x] & Hin & Hr). exists (k, x). split; [|done].
    unfold dict_items in *.
    apply dict_get_elem.
    apply dict_elem_get in Hin;
      [|by apply rebuild_mapping_ok, cycle_ok].
    unfold after_rebuild in Hin. rewrite rebuild_mapping_get, last_claim_fallback in Hin.
    destruct (last_claim (reverses_of (positions_get mt5 v)) k None) as [t|] eqn:Hclaim.
    - (* the comments name the reverse: so they did in the first poll *)
      injection Hin as ->.
      assert (Hfirst : dict_get k (orig_to_rev (after_rebuild mt5 st v)) = Some x).
      { unfold after_rebuild. by rewrite rebuild_mapping_get, last_claim_fallback, Hclaim. }
      revert Hfirst. generalize (after_rebuild mt5 st v).
      intros s Hs.
      apply (value_for_each_inv (λ s, dict_get k (orig_to_rev s) = Some x)); [|done].
      intros op s' w Hs'. rewrite open_reverse_value.
      destruct (needs_open s' op) eqn:Hopen'; [|done].
      apply needs_open_true in Hopen' as [_ Hnone].
      destruct (value (open_and_locate mt5 op w)); [|done].
      simpl. rewrite dict_get_set. case_decide; [congruence | done].
    - (* the entry was kept by the first poll's pass 2 *)
      subst st'. rewrite cycle_value in Hin. unfold cycle_pass2, maintenance_pass in Hin.
      by apply for_each_sync_pair_get in Hin. }
  split; [done|]. split.
  - intros Hnone. destruct (issued second) as [|r l] eqn:E; [done|].
    specialize (Hsub r). rewrite Hnone in Hsub.
    exfalso. eapply not_elem_of_nil, Hsub. left.
  - by apply cycle_ok, cycle_ok.
Qed.

End Frozen.

(** * Further properties *)

(** ** The classifier and the position map *)

Lemma filter_partition_perm {A} (f : A → bool) (l : list A) :
  List.filter (λ x, negb (f x)) l ++ List.filter f l ≡ₚ l.
Proof.
  induction l as [|a l IH]; simpl; [done|].
  destruct (f a); simpl.
  - rewrite <- Permutation_middle. by constructor.
  - by constructor.
Qed.

(** X5.  The first loop of a poll splits the snapshot in two: every position
    lands in exactly one of [originals] and [reverses], nothing is lost or
    duplicated, and a position is a reverse exactly when [is_our_reverse]
    holds for it. *)
Theorem classifier_partitions (all_positions : list (TradePosition F)) :
  originals_of all_positions ++ reverses_of all_positions ≡ₚ all_positions
  ∧ (∀ p, p ∈ originals_of all_positions ↔ p ∈ all_positions ∧ is_our_reverse p = false)
  ∧ (∀ p, p ∈ reverses_of all_positions ↔ p ∈ all_positions ∧ is_our_reverse p = true)
  ∧ (∀ p, p ∈ originals_of all_positions → p ∉ reverses_of all_positions).
Proof.
  assert (Horig : ∀ p, p ∈ originals_of all_positions
                       ↔ p ∈ all_positions ∧ is_our_reverse p = false).
  { intros p. unfold originals_of.
    rewrite !list_elem_of_In, List.filter_In, negb_true_iff. done. }
  assert (Hrev : ∀ p, p ∈ reverses_of all_positions
                      ↔ p ∈ all_positions ∧ is_our_reverse p = true).
  { intros p. unfold reverses_of. by rewrite !list_elem_of_In, List.filter_In. }
  split; [apply filter_partition_perm|]. split; [done|]. split; [done|].
  intros p [_ Ho]%Horig [_ Hr]%Hrev. congruence.
Qed.

Lemma pos_by_ticket_snoc (positions : list (TradePosition F)) p :
  pos_by_ticket (positions ++ [p]) = <[ticket p := p]> (pos_by_ticket positions).
Proof. unfold pos_by_ticket. by rewrite fold_left_app. Qed.

Lemma pos_by_ticket_find (positions : list (TradePosition F)) (t : Z) :
  pos_by_ticket positions !! t
  = List.find (λ p, bool_decide (ticket p = t)) (rev positions).
Proof.
  induction positions as [|p l IH] using rev_ind; [done|].
  rewrite pos_by_ticket_snoc, rev_unit. simpl.
  rewrite lookup_insert. case_decide as Ht.
  - by rewrite bool_decide_eq_true_2.
  - by rewrite bool_decide_eq_false_2.
Qed.

Lemma find_None_iff {A} (f : A → bool) (l : list A) :
  List.find f l = None ↔ ∀ x, In x l → f x = false.
Proof.
  split; [apply List.find_none|].
  induction l as [|a l IH]; intros Hall; simpl; [done|].
  rewrite (Hall a) by by left. apply IH. intros x Hx. apply Hall. by right.
Qed.

(** X6.  [get_positions_map] issues nothing and leaves the venue alone; in
    the map it returns, looking a ticket up gives the last position of the
    venue's list that carries that ticket, and nothing when no position
    carries it. *)
Theorem positions_map_lookup v (t : Z) :
  value (get_positions_map mt5 v) !! t
  = List.find (λ p, bool_decide (ticket p = t)) (rev (positions_get mt5 v))
  ∧ issued (get_positions_map mt5 v) = []
  ∧ venue (get_positions_map mt5 v) = v
  ∧ (value (get_positions_map mt5 v) !! t = None
     ↔ t ∉ ticket <$> positions_get mt5 v).
Proof.
  unfold get_positions_map. msimpl. rewrite pos_by_ticket_find.
  split; [done|]. split; [done|]. split; [done|].
  rewrite find_None_iff. split.
  - intros Hnone (p & -> & Hp)%list_elem_of_fmap.
    specialize (Hnone p). rewrite bool_decide_eq_true_2 in Hnone by done.
    assert (true = false); [|done]. apply Hnone. apply in_rev. rewrite rev_involutive.
    by apply list_elem_of_In.
  - intros Hnot p Hp%in_rev%list_elem_of_In. apply bool_decide_eq_false_2.
    intros <-. apply Hnot. by apply list_elem_of_fmap_2.
Qed.

(** ** Orders *)

Lemma startswith_app (p s : string) : startswith (p +:+ s) p = true.
Proof. unfold startswith. by rewrite strip_prefix_app. Qed.

(** X7.  What the bot writes it reads back: a position that carries the
    owner tag and the comment of an open command submitted for the original
    [op] (whose ticket is not negative) is recognised as the reverse of
    [op] when the new positions are scanned. *)
Theorem submitted_reverse_is_recognised op st v r p :
  0 ≤ ticket op →
  r ∈ issued (open_reverse mt5 op st v) →
  magic p = req_magic r → comment p = req_comment r →
  is_reverse_of (ticket op) p = true.
Proof.
  intros Hticket Hr Hmagic Hcomment.
  pose proof (open_reverse_issued op st v) as Hshape.
  rewrite Forall_forall in Hshape.
  destruct (Hshape r Hr) as (_ & _ & _ & _ & _ & Hc & Hm).
  rewrite Hc in Hcomment. rewrite Hm in Hmagic.
  unfold is_reverse_of, is_our_reverse.
  rewrite decide_True by done. rewrite Hcomment, startswith_app.
  rewrite parse_annotation, bool_decide_eq_true_2 by done. done.
Qed.

Lemma value_price_from_tick symbol ty v :
  value (price_from_tick mt5 symbol ty v)
  = option_map (quote_for ty) (symbol_info_tick mt5 v symbol).
Proof.
  unfold price_from_tick. msimpl.
  destruct (symbol_info_tick mt5 v symbol) as [tick|]; [|done]. by destruct ty.
Qed.

(** X8.  [send_market_order] hands back an order ticket only when it issued
    exactly one request and the venue answered that request with
    [TRADE_RETCODE_DONE]; the ticket is the answer's order ticket, and the
    request is priced at the ask for a buy and at the bid for a sell, as
    quoted after the symbol was ensured. *)
Theorem order_ticket_only_when_done symbol order_type volume sl tp comment magic v (t : Z) :
  value (send_market_order mt5 symbol order_type volume sl tp comment magic v) = Some t →
  let w := venue (ensure_symbol mt5 symbol v) in
  ∃ r res tick,
    issued (send_market_order mt5 symbol order_type volume sl tp comment magic v) = [r]
    ∧ (order_send mt5 w r).1 = Some res
    ∧ retcode res = TRADE_RETCODE_DONE ∧ order res = t
    ∧ symbol_info_tick mt5 w symbol = Some tick
    ∧ req_price r = Some (quote_for (position_side order_type) tick)
    ∧ req_type r = Some order_type ∧ req_volume r = Some volume.
Proof.
  unfold send_market_order. msimpl.
  destruct (value (ensure_symbol mt5 symbol v)); cbn [negb]; [|by msimpl].
  msimpl. rewrite value_price_from_tick.
  change (match order_type with
          | ORDER_TYPE_BUY => POSITION_TYPE_BUY
          | ORDER_TYPE_SELL => POSITION_TYPE_SELL
          end) with (position_side order_type).
  destruct (symbol_info_tick mt5 (venue (ensure_symbol mt5 symbol v)) symbol) as [tick|] eqn:Htick;
    cbn [option_map]; [|by msimpl].
  msimpl.
  match goal with |- context [order_sendM mt5 ?req ?w] => set (r := req) end.
  change (value (order_sendM mt5 r (venue (ensure_symbol mt5 symbol v))))
    with ((order_send mt5 (venue (ensure_symbol mt5 symbol v)) r).1).
  destruct ((order_send mt5 (venue (ensure_symbol mt5 symbol v)) r).1) as [res|] eqn:Hres;
    [|by msimpl].
  case_decide as Hdone; msimpl; [|done].
  intros [= <-]. exists r, res, tick. by repeat split.
Qed.

Lemma value_ensure_symbol symbol v :
  value (ensure_symbol mt5 symbol v)
  = match symbol_info mt5 v symbol with
    | None => false
    | Some info => if visible info then true else (symbol_select mt5 v symbol).1
    end.
Proof. unfold ensure_symbol. msimpl. by mcases. Qed.

Lemma venue_ensure_symbol symbol v :
  venue (ensure_symbol mt5 symbol v)
  = match symbol_info mt5 v symbol with
    | None => v
    | Some info => if visible info then v else (symbol_select mt5 v symbol).2
    end.
Proof. unfold ensure_symbol. msimpl. by mcases. Qed.

Lemma send_market_order_no_tick symbol order_type volume sl tp comment magic v :
  value (ensure_symbol mt5 symbol v) = false
  ∨ symbol_info_tick mt5 (venue (ensure_symbol mt5 symbol v)) symbol = None →
  value (send_market_order mt5 symbol order_type volume sl tp comment magic v) = None
  ∧ issued (send_market_order mt5 symbol order_type volume sl tp comment magic v) = []
  ∧ venue (send_market_order mt5 symbol order_type volume sl tp comment magic v)
    = venue (ensure_symbol mt5 symbol v).
Proof.
  intros Hcase. unfold send_market_order. msimpl.
  destruct (value (ensure_symbol mt5 symbol v)); cbn [negb]; [|by msimpl].
  destruct Hcase as [?|Htick]; [done|].
  msimpl. rewrite value_price_from_tick, Htick. by msimpl.
Qed.

(** X9.  An original whose symbol the venue does not know, or whose symbol is
    visible but has no tick, is skipped: pass 1 issues no command for it,
    changes neither the engine state nor the venue, and so tries again at
    the next poll. *)
Theorem unavailable_instrument_is_skipped op st v :
  symbol_info mt5 v (symbol op) = None
  ∨ (∃ info, symbol_info mt5 v (symbol op) = Some info ∧ visible info = true
             ∧ symbol_info_tick mt5 v (symbol op) = None) →
  value (open_reverse mt5 op st v) = st
  ∧ issued (open_reverse mt5 op st v) = []
  ∧ venue (open_reverse mt5 op st v) = v.
Proof.
  intros Hcase.
  assert (Hlocate : value (open_and_locate mt5 op v) = None
                    ∧ issued (open_and_locate mt5 op v) = []
                    ∧ venue (open_and_locate mt5 op v) = v).
  { unfold open_and_locate. msimpl.
    destruct Hcase as [Hinfo|(info & Hinfo & Hvisible & Htick)].
    - rewrite value_ensure_symbol, venue_ensure_symbol, Hinfo. cbn [negb]. by msimpl.
    - assert (Hval : value (ensure_symbol mt5 (symbol op) v) = true)
        by by rewrite value_ensure_symbol, Hinfo, Hvisible.
      assert (Hven : venue (ensure_symbol mt5 (symbol op) v) = v)
        by by rewrite venue_ensure_symbol, Hinfo, Hvisible.
      rewrite Hval, Hven. cbn [negb]. msimpl.
      match goal with |- context [send_market_order mt5 ?a ?b ?c ?d ?e ?f ?g v] =>
        destruct (send_market_order_no_tick a b c d e f g v) as (Hv & Hi & Hw);
          [right; by rewrite Hven | rewrite ?Hv, ?Hi, ?Hw]
      end.
      by msimpl. }
  destruct Hlocate as (Hval & Hiss & Hven).
  unfold open_reverse. destruct (needs_open st op); [|done].
  msimpl. by rewrite Hval, Hiss, Hven.
Qed.

(** X10.  [close_position] always issues exactly one request, even when the
    symbol has no tick (the request then carries no price): a deal upon the
    position, for the volume given, on the side opposite to the position's,
    priced at the quote of the position's own side; it reports success
    exactly when the venue answers [TRADE_RETCODE_DONE]. *)
Theorem close_request_is_always_sent rev_pos v :
  ∃ r, issued (close_position mt5 (ticket rev_pos) (symbol rev_pos) (volume rev_pos)
                 (type rev_pos) v) = [r]
    ∧ req_action r = TRADE_ACTION_DEAL
    ∧ req_position r = Some (ticket rev_pos)
    ∧ req_volume r = Some (volume rev_pos)
    ∧ req_type r = Some (reverse_type (type rev_pos))
    ∧ req_price r = option_map (quote_for (type rev_pos))
                      (symbol_info_tick mt5 v (symbol rev_pos))
    ∧ (value (close_position mt5 (ticket rev_pos) (symbol rev_pos) (volume rev_pos)
                (type rev_pos) v) = true
       ↔ ∃ res, (order_send mt5 v r).1 = Some res ∧ retcode res = TRADE_RETCODE_DONE).
Proof.
  rewrite close_position_issued. eexists. split; [done|].
  repeat split; try done.
  - simpl. apply value_price_from_tick.
  - unfold close_position. msimpl. unfold order_done.
    match goal with |- context [value (order_sendM mt5 ?req ?w)] =>
      change (value (order_sendM mt5 req w)) with ((order_send mt5 w req).1)
    end.
    intros Hdone. destruct ((order_send mt5 v _).1) as [res|]; [|done].
    exists res. split; [done|]. by apply bool_decide_eq_true in Hdone.
  - unfold close_position. msimpl. unfold order_done.
    match goal with |- context [value (order_sendM mt5 ?req ?w)] =>
      change (value (order_sendM mt5 req w)) with ((order_send mt5 w req).1)
    end.
    intros (res & Hres & Hdone). unfold close_request in Hres. rewrite Hres.
    by apply bool_decide_eq_true.
Qed.

(** ** What a poll opens *)

Lemma is_open_forb_spec (id : Z) r : is_open_forb id r = true ↔ is_open_for id r.
Proof.
  unfold is_open_forb, is_open_for, annotation.
  rewrite !andb_true_iff, !bool_decide_eq_true. naive_solver.
Qed.

Lemma open_request_shape_open symbol order_type volume op r :
  open_request_shape symbol order_type volume (COMMENT_PREFIX +:+ str_of_int (ticket op)) MAGIC r →
  is_open_for (ticket op) r.
Proof. intros (? & ? & _ & _ & _ & ? & _). by repeat split. Qed.

(** X11.  Every open command of a poll is for a position of the snapshot that
    is not one of the bot's reverses and whose identifier was not in the
    Reversed-Once set once the mapping was rebuilt; pass 2 issues no open
    command at all (each of its requests names a position). *)
Theorem opens_only_for_originals st v :
  Forall (λ r, ∃ op, op ∈ positions_get mt5 v ∧ is_our_reverse op = false
                     ∧ (ticket op ∉ reversed_once (after_rebuild mt5 st v))
                     ∧ is_open_for (ticket op) r)
    (issued (cycle_pass1 mt5 st v))
  ∧ Forall (λ r, is_Some (req_position r)) (issued (cycle_pass2 mt5 st v)).
Proof.
  split.
  - unfold cycle_pass1, opening_pass.
    apply (for_each_inv (λ s, reversed_once (after_rebuild mt5 st v) ⊆ reversed_once s));
      [|done].
    intros op s w Hop Hs. split.
    + etrans; [exact Hs | apply open_reverse_mono].
    + rewrite open_reverse_issued_eq.
      destruct (needs_open s op) eqn:Hopen; [|constructor].
      apply needs_open_true in Hopen as [Hro _].
      eapply Forall_impl; [apply open_and_locate_issued|].
      intros r Hr%open_request_shape_open.
      exists op. unfold originals_of in Hop.
      apply list_elem_of_In, List.filter_In in Hop as [Hin Hnot].
      split; [by apply list_elem_of_In|]. split; [by apply negb_true_iff|].
      split; [set_solver | done].
  - unfold cycle_pass2, maintenance_pass. apply issued_for_each.
    intros pair s w. rewrite sync_pair_issued. apply pair_requests_have_position.
Qed.

Lemma open_reverse_count (id : Z) op st v :
  (count_requests (is_open_forb id) (issued (open_reverse mt5 op st v))
   ≤ if decide (ticket op = id) then 1 else 0)%nat.
Proof.
  case_decide as Hid.
  - unfold count_requests. etrans; [apply List.filter_length_le|].
    apply open_reverse_at_most_one.
  - rewrite count_requests_none; [done|].
    eapply Forall_impl; [apply open_reverse_issued|].
    intros r Hr%open_request_shape_open.
    destruct (is_open_forb id r) eqn:Hb; [|done].
    apply is_open_forb_spec in Hb. destruct Hr as (_ & _ & Hc), Hb as (_ & _ & Hc').
    rewrite Hc in Hc'. by apply annotation_inj in Hc'.
Qed.

Lemma opening_pass_count (id : Z) originals st v :
  (count_requests (is_open_forb id) (issued (opening_pass mt5 originals st v))
   ≤ length (List.filter (λ op, bool_decide (ticket op = id)) originals))%nat.
Proof.
  unfold opening_pass. revert st v.
  induction originals as [|op l IH]; intros st v; cbn [for_each]; [by msimpl|].
  rewrite issued_bind, count_requests_app.
  pose proof (open_reverse_count id op st v) as Hop.
  specialize (IH (value (open_reverse mt5 op st v)) (venue (open_reverse mt5 op st v))).
  simpl. case_decide as Hid.
  - rewrite bool_decide_eq_true_2 by done. simpl. lia.
  - rewrite bool_decide_eq_false_2 by done. lia.
Qed.

Lemma NoDup_filter_ticket (id : Z) originals :
  NoDup (ticket <$> originals) →
  (length (List.filter (λ op, bool_decide (ticket op = id)) originals) ≤ 1)%nat.
Proof.
  induction originals as [|op l IH]; simpl; [lia|].
  intros [Hfresh Hnd]%NoDup_cons. specialize (IH Hnd).
  case_bool_decide as Hid; simpl; [|lia].
  assert (Hnone : List.filter (λ op, bool_decide (ticket op = id)) l = []); [|by rewrite Hnone].
  destruct (List.filter (λ op0, bool_decide (ticket op0 = id)) l) as [|op' l'] eqn:E; [done|].
  exfalso. assert (Hin : In op' (List.filter (λ op0, bool_decide (ticket op0 = id)) l))
    by (rewrite E; by left).
  apply List.filter_In in Hin as [Hin Ht%bool_decide_eq_true].
  apply Hfresh. rewrite Hid, <- Ht. by apply list_elem_of_fmap_2, list_elem_of_In.
Qed.

Lemma maintenance_pass_count (id : Z) snapshot st v :
  count_requests (is_open_forb id) (issued (maintenance_pass mt5 snapshot st v)) = 0%nat.
Proof.
  apply count_requests_none.
  eapply Forall_impl; [apply (maintenance_pass_no_open id)|].
  intros r Hnot. destruct (is_open_forb id r) eqn:Hb; [|done].
  by apply is_open_forb_spec in Hb.
Qed.

Lemma opening_pass_length originals st v :
  (length (issued (opening_pass mt5 originals st v)) ≤ length originals)%nat.
Proof.
  unfold opening_pass. revert st v.
  induction originals as [|op l IH]; intros s w; cbn [for_each]; [by msimpl|].
  rewrite issued_bind, length_app. simpl.
  pose proof (open_reverse_at_most_one op s w).
  specialize (IH (value (open_reverse mt5 op s w)) (venue (open_reverse mt5 op s w))).
  lia.
Qed.

(** X12.  No spamming within a poll: when the tickets of the originals in
    the snapshot are distinct, a poll issues at most one open command for
    any identifier; and in any case it issues at most one command per
    original in pass 1. *)
Theorem at_most_one_open_per_poll st v (id : Z) :
  NoDup (ticket <$> originals_of (positions_get mt5 v)) →
  (count_requests (is_open_forb id) (issued (cycle mt5 st v)) ≤ 1)%nat
  ∧ (length (issued (cycle_pass1 mt5 st v)) ≤ length (originals_of (positions_get mt5 v)))%nat.
Proof.
  intros Hnd. split.
  - rewrite cycle_issued, count_requests_app.
    unfold cycle_pass2. rewrite maintenance_pass_count.
    unfold cycle_pass1. etrans; [|apply (NoDup_filter_ticket id _ Hnd)].
    rewrite Nat.add_0_r. apply opening_pass_count.
  - apply opening_pass_length.
Qed.

(** ** Restarts *)

Lemma rebuild_mapping_claims reverses rp st (o : Z) :
  rp ∈ reverses → parse_original_ticket_from_comment (comment rp) = Some o →
  o ∈ reversed_once (rebuild_mapping reverses st).
Proof.
  intros (l1 & l2 & ->)%list_elem_of_split Hparse.
  rewrite rebuild_mapping_app.
  change (rp :: l2) with ([rp] ++ l2). rewrite rebuild_mapping_app.
  apply rebuild_mapping_mono. unfold rebuild_mapping at 1. simpl.
  unfold relink. rewrite Hparse. simpl. set_solver.
Qed.

(** X13.  Restart safety: if the snapshot of a poll holds a position with the
    bot's tag whose comment parses to [o], then from any engine state (an
    empty one after a restart included) that poll issues no open command
    for [o], and [o] is in the Reversed-Once set when the poll ends. *)
Theorem live_reverse_blocks_open st v rp (o : Z) :
  rp ∈ positions_get mt5 v → is_our_reverse rp = true →
  parse_original_ticket_from_comment (comment rp) = Some o →
  Forall (λ r, ¬ is_open_for o r) (issued (cycle mt5 st v))
  ∧ o ∈ reversed_once (value (cycle mt5 st v)).
Proof.
  intros Hin Hours Hparse.
  assert (Hro : o ∈ reversed_once (after_rebuild mt5 st v)).
  { apply (rebuild_mapping_claims _ rp); [|done].
    unfold reverses_of. apply list_elem_of_In, List.filter_In.
    split; [by apply list_elem_of_In | done]. }
  assert (Hpass1 : o ∈ reversed_once (value (cycle_pass1 mt5 st v))
                   ∧ Forall (λ r, ¬ is_open_for o r) (issued (cycle_pass1 mt5 st v))).
  { unfold cycle_pass1, opening_pass.
    apply (for_each_inv (λ s, o ∈ reversed_once s)); [|done].
    intros op s w _ Hs. split; [|by apply open_reverse_not_reopened].
    by apply (open_reverse_mono op s w). }
  destruct Hpass1 as [Hro1 Hno]. split.
  - rewrite cycle_issued. apply Forall_app. split; [done|].
    apply maintenance_pass_no_open.
  - rewrite cycle_value. unfold cycle_pass2.
    by rewrite maintenance_pass_reversed_once.
Qed.

(** ** What a poll touches *)

Lemma pair_requests_target (live : list (TradePosition F)) (o rt : Z) v :
  Forall (λ r, req_position r = Some rt ∧ is_Some (pos_by_ticket live !! rt)
               ∧ req_magic r = MAGIC)
    (pair_requests mt5 (pos_by_ticket live) (o, rt) v).
Proof.
  destruct (pos_by_ticket live !! rt) as [rev_pos|] eqn:Hr;
    [|rewrite pair_requests_rev_gone by done; constructor].
  pose proof (pos_by_ticket_lookup _ _ _ Hr) as [Ht _].
  destruct (pos_by_ticket live !! o) as [orig_pos|] eqn:Ho.
  - rewrite (pair_requests_live _ _ _ _ _ _ Ho Hr), sync_sltp_issued.
    case_match; repeat constructor; simpl; by rewrite ?Ht; eauto.
  - rewrite pair_requests_closed, Hr by done.
    repeat constructor; simpl; by rewrite ?Ht; eauto.
Qed.

Lemma for_each_sync_pair_targets (live : list (TradePosition F)) (pairs : list (Z * Z)) st v :
  Forall (λ r, ∃ o rt, (o, rt) ∈ pairs
                       ∧ req_position r = Some rt
                       ∧ is_Some (pos_by_ticket live !! rt)
                       ∧ req_magic r = MAGIC)
    (issued (for_each (sync_pair mt5 (pos_by_ticket live)) pairs st v))
  ∧ (length (issued (for_each (sync_pair mt5 (pos_by_ticket live)) pairs st v))
     ≤ length pairs)%nat.
Proof.
  revert st v. induction pairs as [|[o rt] pairs IH]; intros s w; cbn [for_each].
  - msimpl. split; [constructor | simpl; lia].
  - rewrite issued_bind, sync_pair_issued, length_app.
    destruct (IH (value (sync_pair mt5 (pos_by_ticket live) (o, rt) s w))
                (venue (sync_pair mt5 (pos_by_ticket live) (o, rt) s w))) as [IHf IHl].
    split.
    + apply Forall_app. split.
      * eapply Forall_impl; [apply pair_requests_target|].
        intros r (Hpos & Hlive & Hmagic). exists o, rt. split; [left | done].
      * eapply Forall_impl; [exact IHf|].
        intros r (o' & rt' & Hin & Hrest). exists o', rt'. split; [by right | done].
    + assert (Hone : (length (pair_requests mt5 (pos_by_ticket live) (o, rt) w) ≤ 1)%nat).
      { destruct (pos_by_ticket live !! rt) as [rev_pos|] eqn:Hr;
          [|rewrite pair_requests_rev_gone by done; simpl; lia].
        destruct (pos_by_ticket live !! o) as [orig_pos|] eqn:Ho.
        - rewrite (pair_requests_live _ _ _ _ _ _ Ho Hr), sync_sltp_issued.
          case_match; simpl; lia.
        - rewrite pair_requests_closed, Hr by done. simpl. lia. }
      simpl. lia.
Qed.

(** X14.  Pass 2 only ever commands tracked, live reverses: each request it
    issues carries the bot's owner tag and names a position that is the
    reverse of some pair of the linkage table and is in the live snapshot;
    and it issues at most one request per pair. *)
Theorem maintenance_touches_only_tracked_reverses (live : list (TradePosition F)) st v :
  Forall (λ r, ∃ o rt, (o, rt) ∈ dict_items (orig_to_rev st)
                       ∧ req_position r = Some rt
                       ∧ is_Some (pos_by_ticket live !! rt)
                       ∧ req_magic r = MAGIC)
    (issued (maintenance_pass mt5 (pos_by_ticket live) st v))
  ∧ (length (issued (maintenance_pass mt5 (pos_by_ticket live) st v))
     ≤ length (dict_items (orig_to_rev st)))%nat.
Proof. unfold maintenance_pass. apply for_each_sync_pair_targets. Qed.






(** ** The fate of a pair in pass 2 *)

(** X16.  A tracked pair whose reverse is no longer in the snapshot is
    dropped from the linkage table without any command on its account; its
    original, being in the Reversed-Once set, stays there, so pass 1 does not
    take the opening branch for it afterwards. *)
Theorem vanished_reverse_is_forgotten (live : list (TradePosition F)) st v (o rt : Z) op :
  (o, rt) ∈ dict_items (orig_to_rev st) →
  pos_by_ticket live !! rt = None →
  o ∈ reversed_once st → ticket op = o →
  let pass := maintenance_pass mt5 (pos_by_ticket live) st v in
  dict_get o (orig_to_rev (value pass)) = None
  ∧ (∀ w, pair_requests mt5 (pos_by_ticket live) (o, rt) w = [])
  ∧ o ∈ reversed_once (value pass)
  ∧ needs_open (value pass) op = false.
Proof.
  intros Hin Hgone Hro Hop pass.
  assert (Hdrop : dict_get o (orig_to_rev (value pass)) = None).
  { apply (for_each_sync_pair_removed _ _ _ _ o rt); [done|].
    unfold both_live. simpl. rewrite Hgone. by case_match. }
  assert (Hro' : o ∈ reversed_once (value pass)).
  { subst pass. by rewrite maintenance_pass_reversed_once. }
  split; [done|]. split; [intros w; by apply pair_requests_rev_gone|]. split; [done|].
  destruct (needs_open (value pass) op) eqn:Hopen; [|done].
  apply needs_open_true in Hopen as [Hnot _]. by rewrite Hop in Hnot.
Qed.

(** X17.  A tracked pair both of whose positions are in the snapshot stays
    in the linkage table, linked to the same reverse; pass 2 issues no close
    command on its account, and at most one command (a modify upon the
    reverse). *)
Theorem live_pair_is_kept (live : list (TradePosition F)) st v (o rt : Z) orig_pos rev_pos :
  dict_wf (orig_to_rev st) →
  (o, rt) ∈ dict_items (orig_to_rev st) →
  pos_by_ticket live !! o = Some orig_pos →
  pos_by_ticket live !! rt = Some rev_pos →
  dict_get o (orig_to_rev (value (maintenance_pass mt5 (pos_by_ticket live) st v))) = Some rt
  ∧ ∀ w, Forall (λ r, is_modify_of rt r = true)
           (pair_requests mt5 (pos_by_ticket live) (o, rt) w)
         ∧ (length (pair_requests mt5 (pos_by_ticket live) (o, rt) w) ≤ 1)%nat.
Proof.
  intros Hwf Hin Ho Hr. split.
  - unfold maintenance_pass. rewrite for_each_sync_pair_kept.
    + by apply dict_elem_get.
    + intros x Hx. unfold dict_items in *.
      assert (x = rt) as ->.
      { apply (dict_elem_get _ _ _ Hwf) in Hx, Hin. congruence. }
      unfold both_live. simpl. by rewrite Ho, Hr.
  - intros w. rewrite (pair_requests_live _ _ _ _ _ _ Ho Hr), sync_sltp_issued.
    apply pos_by_ticket_lookup in Hr as [Ht _].
    case_match; simpl; split; try lia; repeat constructor.
    unfold is_modify_of. simpl. rewrite Ht. by rewrite !bool_decide_eq_true_2.
Qed.

(** ** Rebuilding the mapping *)

Lemma rebuild_mapping_reversed_once reverses st :
  reversed_once (rebuild_mapping reverses st)
  = reversed_once st
    ∪ list_to_set (omap (λ rp, parse_original_ticket_from_comment (comment rp)) reverses).
Proof.
  unfold rebuild_mapping. revert st.
  induction reverses as [|rp l IH]; intros st; simpl; [set_solver|].
  rewrite IH. unfold relink.
  destruct (parse_original_ticket_from_comment (comment rp)); simpl; set_solver.
Qed.

(** X18.  Rebuilding the mapping from the same reverses a second time changes
    nothing: the Reversed-Once set and every lookup in the linkage table are
    as after the first rebuild. *)
Theorem rebuild_is_idempotent reverses st :
  let once := rebuild_mapping reverses st in
  reversed_once (rebuild_mapping reverses once) = reversed_once once
  ∧ ∀ k, dict_get k (orig_to_rev (rebuild_mapping reverses once))
         = dict_get k (orig_to_rev once).
Proof.
  intros once. subst once. split.
  - rewrite !rebuild_mapping_reversed_once. set_solver.
  - intros k. rewrite !rebuild_mapping_get.
    rewrite (last_claim_fallback reverses k (last_claim _ _ _)).
    rewrite (last_claim_fallback reverses k (dict_get k (orig_to_rev st))).
    by destruct (last_claim reverses k None).
Qed.

(** X19.  In every engine state [main] reaches, an original that the linkage
    table links is in the Reversed-Once set. *)
Theorem linked_originals_are_reversed_once n v (k : Z) :
  dict_mem k (orig_to_rev (value (main mt5 n v))) = true →
  k ∈ reversed_once (value (main mt5 n v)).
Proof.
  intros Hmem. destruct (main_ok n v) as [_ Hin]. apply Hin.
  by apply dict_get_keys, dict_mem_get.
Qed.

End Proofs.

(** * The theorems at concrete inputs *)

Lemma frozen_gateway_never_changes : venue_never_changes frozen_gateway.
Proof. by repeat split. Qed.

(** The spec's scenario, first step: for the long original #100 of volume
    1.0 with stop-loss 1.0950 and take-profit 1.1050 the engine submits a
    sell of volume 2.0 with stop-loss 1.1050, take-profit 1.0950 and the
    annotation of #100. *)
Example scenario_open :
  issued (cycle frozen_gateway initial_engine accepting_venue)
  = [{| req_action := TRADE_ACTION_DEAL;
        req_position := None;
        req_symbol := "EURUSD";
        req_type := Some ORDER_TYPE_SELL;
        req_volume := Some 2%Q;
        req_price := Some (11 # 10)%Q;
        req_deviation := Some DEVIATION;
        req_magic := MAGIC;
        req_comment := "REV of 100";
        req_type_filling := Some ORDER_FILLING_FOK;
        req_type_time := Some ORDER_TIME_GTC;
        req_sl := Some (221 # 200)%Q;
        req_tp := Some (219 # 200)%Q |}].
Proof. by vm_compute. Qed.

(** C1 at an engine that has reversed #100 once, over three polls. *)
Lemma reversed_once_blocks_reopening_witness :
  100 ∈ reversed_once reversed_100
  ∧ Forall (λ r, ¬ is_open_for 100 r)
      (issued (run frozen_gateway 3 reversed_100 accepting_venue)).
Proof.
  assert (H100 : 100 ∈ reversed_once reversed_100)
    by (apply (bool_decide_unpack _); vm_compute; exact I).
  split; [exact H100|].
  apply (reversed_once_blocks_reopening frozen_gateway 3 reversed_100 accepting_venue 100 H100).
Defined.

(** C2 fails as stated: a take-profit of -1 is neither absent nor zero, and
    the desired stop-loss of the reverse is unset all the same. *)
Lemma negative_level_counts_as_unset :
  f_eqb (tp original_negative_tp) f_zero = false
  ∧ (desired_sltp_for_reverse original_negative_tp).1 = None.
Proof. by vm_compute. Qed.

(** C3 at the reverse #11 whose original #1 is gone: the rebuilt pair
    (#1, #11) is dropped and the poll issues one close upon #11. *)
Lemma cascade_close_witness :
  (1, 11) ∈ dict_items (orig_to_rev (value (cycle_pass1 frozen_gateway initial_engine
                                              orphan_venue)))
  ∧ cycle_live frozen_gateway initial_engine orphan_venue !! 1 = None
  ∧ dict_get 1 (orig_to_rev (value (cycle frozen_gateway initial_engine orphan_venue))) = None
  ∧ count_requests (is_close_of 11) (issued (cycle frozen_gateway initial_engine orphan_venue))
    = 1%nat.
Proof.
  assert (Hin : (1, 11) ∈ dict_items (orig_to_rev (value (cycle_pass1 frozen_gateway
                                                           initial_engine orphan_venue))))
    by (vm_compute; left).
  assert (Hgone : cycle_live frozen_gateway initial_engine orphan_venue !! 1 = None)
    by reflexivity.
  destruct (cascade_close frozen_gateway initial_engine orphan_venue 1 11 Hin Hgone)
    as (Hdrop & _ & Hcount).
  split; [exact Hin|]. split; [exact Hgone|]. split; [exact Hdrop|].
  apply Hcount.
  - apply dict_wf_nil.
  - intros o' Ho'. vm_compute in Ho'. apply list_elem_of_singleton in Ho'. congruence.
Defined.

(** C4 fails as stated: on a venue that rejects the open for #100 and does
    not change, the second poll issues the open again. *)
Lemma rejected_open_is_retried :
  let first := cycle frozen_gateway initial_engine rejecting_venue in
  let second := cycle frozen_gateway (value first) (venue first) in
  venue first = rejecting_venue
  ∧ List.map req_comment (issued first) = ["REV of 100"]
  ∧ List.map req_comment (issued second) = ["REV of 100"]
  ∧ issued second ≠ [].
Proof. by vm_compute. Qed.

(** C4 as amended, at the same two polls. *)
Lemma second_poll_only_retries_witness :
  venue_never_changes frozen_gateway
  ∧ engine_ok (initial_engine)
  ∧ ∀ r, r ∈ issued (cycle frozen_gateway
                       (value (cycle frozen_gateway initial_engine rejecting_venue))
                       (venue (cycle frozen_gateway initial_engine rejecting_venue)))
         → r ∈ issued (cycle frozen_gateway initial_engine rejecting_venue).
Proof.
  split; [exact frozen_gateway_never_changes|]. split; [exact initial_engine_ok|].
  apply (second_poll_only_retries frozen_gateway frozen_gateway_never_changes
           initial_engine rejecting_venue initial_engine_ok).
Defined.

(** C5 at a live pair whose levels differ raw and agree at 4 digits. *)
Lemma rounding_stability_witness :
  symbol_info frozen_gateway four_digit_venue (symbol reverse_raw)
  = Some {| digits := 4; visible := true |}
  ∧ f_eqb (tp original_raw) (sl reverse_raw) = false
  ∧ issued (sync_sltp frozen_gateway original_raw reverse_raw four_digit_venue) = [].
Proof.
  assert (Hinfo : symbol_info frozen_gateway four_digit_venue (symbol reverse_raw)
                  = Some {| digits := 4; visible := true |}) by reflexivity.
  split; [exact Hinfo|]. split; [reflexivity|].
  apply (rounding_stability frozen_gateway original_raw reverse_raw _ four_digit_venue Hinfo);
    reflexivity.
Defined.

(** C6 fails as stated: on an instrument traded in steps of 0.001 lots, the
    reverse of a 0.001-lot original is submitted with volume 0.0, not 0.002. *)
Lemma reverse_volume_ignores_instrument_precision :
  List.map req_volume (issued (cycle frozen_gateway initial_engine small_lot_venue))
  = [Some 0%Q]
  ∧ spec_reverse_volume 3 (volume original_small) = (1 # 500)%Q
  ∧ f_eqb 0%Q (spec_reverse_volume 3 (volume original_small)) = false.
Proof. by vm_compute. Qed.

(** C7 fails as stated: of two reverses that claim #1, the last one is
    linked and, #1 being gone, a close command is issued upon it. *)
Lemma ambiguous_reverse_is_managed :
  dict_get 1 (orig_to_rev (rebuild_mapping (reverses_of (fz_positions ambiguous_venue))
                             initial_engine)) = Some 11
  ∧ List.map req_position (issued (cycle frozen_gateway initial_engine ambiguous_venue))
    = [Some 11].
Proof. by vm_compute. Qed.

(** C7 as amended, at the same two reverses. *)
Lemma last_reverse_wins_witness :
  parse_original_ticket_from_comment (comment reverse_11) = Some 1
  ∧ dict_get 1 (orig_to_rev (rebuild_mapping [reverse_10; reverse_11] initial_engine))
    = Some 11.
Proof.
  assert (Hparse : parse_original_ticket_from_comment (comment reverse_11) = Some 1)
    by reflexivity.
  split; [exact Hparse|].
  apply (last_reverse_wins [reverse_10] [] reverse_11 initial_engine 1 Hparse).
  intros rp' Hrp'. by apply elem_of_nil in Hrp'.
Defined.



(** Such a position gets a reverse like any other original. *)
Example own_tag_original_gets_reverse :
  List.map req_comment (issued (cycle frozen_gateway initial_engine tagged_venue))
  = ["REV of 500"].
Proof. by vm_compute. Qed.

(** * The further properties at concrete inputs *)

(** X2 at a comment with leading zeros. *)
Lemma parsed_ticket_nonnegative_witness :
  parse_original_ticket_from_comment "REV of 007" = Some 7 ∧ 0 ≤ 7.
Proof.
  assert (Hparse : parse_original_ticket_from_comment "REV of 007" = Some 7) by reflexivity.
  split; [exact Hparse | exact (parsed_ticket_nonnegative _ _ Hparse)].
Defined.

(** X7 at the open command for #100. *)
Lemma submitted_reverse_is_recognised_witness :
  open_request_100 ∈ issued (open_reverse frozen_gateway original_100 initial_engine
                               accepting_venue)
  ∧ is_reverse_of (ticket original_100) reverse_of_100 = true.
Proof.
  assert (Hr : open_request_100 ∈ issued (open_reverse frozen_gateway original_100
                                            initial_engine accepting_venue))
    by (vm_compute; left).
  split; [exact Hr|].
  apply (submitted_reverse_is_recognised frozen_gateway original_100 initial_engine
           accepting_venue open_request_100 reverse_of_100); [by vm_compute | exact Hr | |];
    reflexivity.
Defined.

(** X8 at a sell order the venue accepts. *)
Lemma order_ticket_only_when_done_witness :
  value (send_market_order frozen_gateway "EURUSD" ORDER_TYPE_SELL 2%Q None None
           "REV of 100" MAGIC accepting_venue) = Some 7
  ∧ ∃ r, issued (send_market_order frozen_gateway "EURUSD" ORDER_TYPE_SELL 2%Q None None
                   "REV of 100" MAGIC accepting_venue) = [r]
         ∧ req_type r = Some ORDER_TYPE_SELL.
Proof.
  assert (Hsome : value (send_market_order frozen_gateway "EURUSD" ORDER_TYPE_SELL 2%Q
                           None None "REV of 100" MAGIC accepting_venue) = Some 7)
    by reflexivity.
  split; [exact Hsome|].
  destruct (order_ticket_only_when_done frozen_gateway _ _ _ _ _ _ _ _ _ Hsome)
    as (r & res & tick & Hissued & _ & _ & _ & _ & _ & Htype & _).
  exists r. split; [exact Hissued | exact Htype].
Defined.

(** X9 at a venue that does not know the symbol of #100. *)
Lemma unavailable_instrument_is_skipped_witness :
  symbol_info frozen_gateway unknown_symbol_venue (symbol original_100) = None
  ∧ issued (open_reverse frozen_gateway original_100 initial_engine unknown_symbol_venue) = [].
Proof.
  assert (Hinfo : symbol_info frozen_gateway unknown_symbol_venue (symbol original_100) = None)
    by reflexivity.
  split; [exact Hinfo|].
  apply (unavailable_instrument_is_skipped frozen_gateway original_100 initial_engine
           unknown_symbol_venue (or_introl Hinfo)).
Defined.

(** X12 at the venue that rejects the open for #100. *)
Lemma at_most_one_open_per_poll_witness :
  NoDup (ticket <$> originals_of (positions_get frozen_gateway rejecting_venue))
  ∧ (count_requests (is_open_forb 100)
       (issued (cycle frozen_gateway initial_engine rejecting_venue)) ≤ 1)%nat.
Proof.
  assert (Hnd : NoDup (ticket <$> originals_of (positions_get frozen_gateway rejecting_venue)))
    by (vm_compute; apply NoDup_singleton).
  split; [exact Hnd|].
  apply (at_most_one_open_per_poll frozen_gateway initial_engine rejecting_venue 100 Hnd).
Defined.

(** X13 after a restart, with the reverse #11 of #1 live. *)
Lemma live_reverse_blocks_open_witness :
  reverse_11 ∈ positions_get frozen_gateway orphan_venue
  ∧ 1 ∈ reversed_once (value (cycle frozen_gateway initial_engine orphan_venue)).
Proof.
  assert (Hin : reverse_11 ∈ positions_get frozen_gateway orphan_venue) by (simpl; left).
  split; [exact Hin|].
  apply (live_reverse_blocks_open frozen_gateway initial_engine orphan_venue reverse_11 1 Hin);
    reflexivity.
Defined.


(** X16 at the pair (#400, #401) when only #400 is left. *)
Lemma vanished_reverse_is_forgotten_witness :
  (400, 401) ∈ dict_items (orig_to_rev tracking_400_401)
  ∧ dict_get 400 (orig_to_rev (value (maintenance_pass frozen_gateway
                                       (pos_by_ticket [original_raw]) tracking_400_401
                                       four_digit_venue))) = None.
Proof.
  assert (Hin : (400, 401) ∈ dict_items (orig_to_rev tracking_400_401)) by (simpl; left).
  assert (Hro : 400 ∈ reversed_once tracking_400_401)
    by (apply (bool_decide_unpack _); vm_compute; exact I).
  split; [exact Hin|].
  apply (vanished_reverse_is_forgotten frozen_gateway [original_raw] tracking_400_401
           four_digit_venue 400 401 original_raw Hin eq_refl Hro eq_refl).
Defined.

(** X17 at the pair (#400, #401) with both positions live. *)
Lemma live_pair_is_kept_witness :
  dict_wf (orig_to_rev tracking_400_401)
  ∧ dict_get 400 (orig_to_rev (value (maintenance_pass frozen_gateway
                                       (pos_by_ticket [original_raw; reverse_raw])
                                       tracking_400_401 four_digit_venue))) = Some 401.
Proof.
  assert (Hwf : dict_wf (orig_to_rev tracking_400_401)) by apply NoDup_singleton.
  assert (Hin : (400, 401) ∈ dict_items (orig_to_rev tracking_400_401)) by (simpl; left).
  split; [exact Hwf|].
  apply (live_pair_is_kept frozen_gateway [original_raw; reverse_raw] tracking_400_401
           four_digit_venue 400 401 original_raw reverse_raw Hwf Hin eq_refl eq_refl).
Defined.

(** X19 after one poll on the same venue. *)
Lemma linked_originals_are_reversed_once_witness :
  dict_mem 400 (orig_to_rev (value (main frozen_gateway 1 four_digit_venue))) = true
  ∧ 400 ∈ reversed_once (value (main frozen_gateway 1 four_digit_venue)).
Proof.
  assert (Hmem : dict_mem 400 (orig_to_rev (value (main frozen_gateway 1 four_digit_venue)))
                 = true) by reflexivity.
  split; [exact Hmem | exact (linked_originals_are_reversed_once frozen_gateway 1 _ 400 Hmem)].
Defined.
